(** * RoTrust chaincode: property, transaction and escrow contracts

    A shallow embedding of the three Hyperledger Fabric contracts

      - [blockchain/chaincode/escrow_contract.js]   (class EscrowContract),
      - the property contract                       (class PropertyContract),
      - the transaction contract                    (class TransactionContract),

    followed by the properties of the escrow state machine that the
    specification states about them.

    Conventions of the embedding.

    - The world state is a finite map from keys to the JavaScript objects
      whose JSON text the contracts store.  One map serves the three
      contracts, as one key space does in the source: no operation looks at
      [docType] before it uses a record.
    - An object is a record of optional fields, [None] standing for
      [undefined]; the fields are the union of those the three contracts
      read or write.
    - A contract method is a computation in a state-and-exception monad:
      [getState] and [putState] act on the world state, [throw] aborts the
      invocation and keeps the writes made so far visible in the result, so
      that "a failing invocation has written nothing" is a theorem about the
      code and not a property of the monad.
    - Numbers are IEEE-754 binary64 values ([spec_float] with precision 53),
      the arithmetic of JavaScript's [number].
    - A textual argument that the source hands to [JSON.parse] is represented
      by what [JSON.parse] makes of it ([None] when it throws); an argument
      handed to [parseFloat] is represented by the number [parseFloat]
      returns.  [new Date().toISOString()] is the argument [now]. *)

From stdpp Require Import gmap strings list fin_maps.
From Stdlib Require Import SpecFloat QArith Qabs.

Local Open Scope string_scope.
Local Open Scope list_scope.

(** ** JavaScript values used by the contracts *)

Module JS.

(** *** Numbers *)

Definition number : Type := spec_float.

Definition prec : Z := 53.
Definition emax : Z := 1024.

Definition zero : number := S754_zero false.
Definition NaN : number := S754_nan.

(** [x + y], [x - y], [Math.abs(x)], [x < y]. *)
Definition add (x y : number) : number := SFadd prec emax x y.
Definition sub (x y : number) : number := SFsub prec emax x y.
Definition abs (x : number) : number := SFabs x.
Definition lt (x y : number) : bool := SFltb x y.

(** The double that denotes an integer literal, and the double nearest to
    the decimal fraction [n / d] (correctly rounded division of two exactly
    representable integers), e.g. [decimal 1 100] for the literal [0.01]. *)
Definition of_Z (n : Z) : number := binary_normalize prec emax n 0 false.
Definition decimal (n d : Z) : number := SFdiv prec emax (of_Z n) (of_Z d).

(** The rational number a finite double stands for. *)
Definition to_Q (x : number) : option Q :=
  match x with
  | S754_zero _ => Some 0%Q
  | S754_finite s m e =>
      let v := (if s then Z.neg m else Z.pos m) in
      Some (match e with
            | Z0 => inject_Z v
            | Z.pos p => inject_Z (v * Z.pow_pos 2 p)
            | Z.neg p => Qmake v (Pos.pow 2 p)
            end)
  | S754_infinity _ | S754_nan => None
  end.

(** *** Numeric fields of parsed JSON

    [JSON.stringify] writes [null] for [NaN] and the infinities and [0] for
    [-0]; a numeric field read back from the ledger is therefore a number
    or [null]. *)
Inductive jnum : Type :=
| Num (x : number)
| Null.

(** ToNumber, as applied by [+] and [-] to a non-string operand. *)
Definition ToNumber (v : jnum) : number :=
  match v with
  | Num x => x
  | Null => zero
  end.

(** [JSON.parse(JSON.stringify(v))] for a numeric field. *)
Definition JSON_number (v : jnum) : jnum :=
  match v with
  | Num (S754_zero _) => Num zero
  | Num (S754_finite s m e) => Num (S754_finite s m e)
  | Num (S754_infinity _) | Num S754_nan => Null
  | Null => Null
  end.

(** *** Objects used as maps

    [conditions_met] is a plain object: its prototype is
    [Object.prototype], whose property names the [in] operator finds as
    well as the object's own keys. *)
Definition Object_prototype : list string :=
  [ "constructor"; "__defineGetter__"; "__defineSetter__"; "hasOwnProperty";
    "__lookupGetter__"; "__lookupSetter__"; "isPrototypeOf";
    "propertyIsEnumerable"; "toString"; "valueOf"; "__proto__";
    "toLocaleString" ].

(** [k in o] *)
Definition has_property (k : string) (o : gmap string bool) : bool :=
  bool_decide (is_Some (o !! k)) || bool_decide (k ∈ Object_prototype).

(** [o[k] = v] for a boolean [v]: an own property is created or updated,
    except that assigning a non-object to the inherited accessor
    [__proto__] does nothing. *)
Definition assign (k : string) (v : bool) (o : gmap string bool) : gmap string bool :=
  if decide (k = "__proto__" ∧ o !! k = None) then o else <[k := v]> o.

(** [Object.values(o).every(met => met === true)] *)
Definition every_true (o : gmap string bool) : bool :=
  forallb (λ met, bool_decide (met = true)) (map_to_list o).*2.

(** [a || b] on strings: the empty string is falsy. *)
Definition or (a b : string) : string :=
  if decide (a = EmptyString) then b else a.

End JS.

(** ** Errors

  The contracts throw [Error] objects that differ in their message only.
  The messages are classified by the taxonomy of the specification:

  - "... does not exist" after a failed [getState]           NotFoundError
  - "Property ... is not owned by ..."                       OwnershipMismatchError
  - "Cannot add payment to escrow in ... status",
    "Cannot add document to escrow in ... status",
    "Cannot update conditions for escrow in ... status",
    "Escrow ... is not ready for completion",
    "Escrow ... cannot be cancelled because it is already ...",
    "Transaction ... is not in pending status",
    "Transaction ... cannot be cancelled because it is not pending"
                                                             InvalidStateError
  - "Condition ... does not exist in escrow ..."             UnknownConditionError

  [SyntaxError] is what [JSON.parse] throws, [TypeError] what a member
  access on [undefined] throws, and [StubError] the rejection by the ledger
  stub of a write under a key that is not a string.  No statement of the
  contracts throws an error for an occupied key; [AlreadyExistsError] is
  part of the taxonomy only. *)
Inductive error : Type :=
| NotFoundError
| AlreadyExistsError
| OwnershipMismatchError
| InvalidStateError
| UnknownConditionError
| SyntaxError
| TypeError
| StubError.

#[global] Instance error_eq_dec : EqDecision error.
Proof. solve_decision. Defined.

Inductive outcome (A : Type) : Type :=
| Returns (a : A)
| Throws (e : error).
Arguments Returns {A} a.
Arguments Throws {A} e.

Section Chaincode.

(** The values [JSON.parse] builds from the free-form arguments
    ([details], [metadata], ...) are opaque to every operation; only
    [UpdateProperty] combines two of them, by the object spread
    [{ ...a, ...b }] (whose first operand may be [undefined]). *)
Context {Json : Type}.
Variable spread : option Json → Json → Json.

(** ** Records *)

(** An element of [escrow.payments]. *)
Record Payment : Type := {
  pay_paymentId : string;
  pay_amount : JS.jnum;
  pay_paymentMethod : string;
  pay_details : Json;
  pay_timestamp : string
}.

(** An element of [escrow.documents]. *)
Record Document : Type := {
  doc_documentId : string;
  doc_documentType : string;
  doc_documentHash : string;
  doc_metadata : Json;
  doc_timestamp : string
}.

(** An element of [escrow.verifications]. *)
Record Verification : Type := {
  ver_conditionId : string;
  ver_verifierId : string;
  ver_details : Json;
  ver_timestamp : string
}.

(** An element of the array [JSON.parse(conditions)] that is not [null]:
    the property key its [id] converts to ("undefined" for an element
    without [id]), and the rest of the element. *)
Record Condition : Type := {
  cond_id : string;
  cond_body : Json
}.

(** The value [JSON.parse(conditions)]: either a value that [for ... of]
    cannot iterate ([null], a number, a boolean, an object), or the
    elements of an array (of a string: its characters), a [null] element
    being [None]. *)
Inductive Conditions : Type :=
| NotIterable
| Elements (items : list (option Condition)).

(** An element of [property.history].  The three writers
    ([TransferProperty], [CompleteTransaction], [CompleteEscrow]) fill
    different subsets of the fields. *)
Record HistoryEntry : Type := {
  hist_type : string;
  hist_transactionId : option string;
  hist_escrowId : option string;
  hist_fromOwnerId : option string;
  hist_toOwnerId : option string;
  hist_price : option JS.jnum;
  hist_paymentMethod : option string;
  hist_details : option Json;
  hist_timestamp : string
}.

(** A stored object: property, transaction or escrow. *)
Record Obj : Type := {
  docType : option string;
  propertyId : option string;
  address : option string;
  ownerId : option string;
  details : option Json;
  status : option string;
  history : option (list HistoryEntry);
  createdAt : option string;
  updatedAt : option string;
  transactionId : option string;
  sellerId : option string;
  buyerId : option string;
  price : option JS.jnum;
  paymentMethod : option string;
  notes : option string;
  cancellationReason : option string;
  escrowId : option string;
  conditions : option Conditions;
  payments : option (list Payment);
  documents : option (list Document);
  conditions_met : option (gmap string bool);
  verifications : option (list Verification)
}.

(** *** Field assignments [o.f = v] *)

Definition set_ownerId (v : option string) (o : Obj) : Obj :=
  {| docType := docType o; propertyId := propertyId o; address := address o;
     ownerId := v; details := details o; status := status o;
     history := history o; createdAt := createdAt o; updatedAt := updatedAt o;
     transactionId := transactionId o; sellerId := sellerId o;
     buyerId := buyerId o; price := price o; paymentMethod := paymentMethod o;
     notes := notes o; cancellationReason := cancellationReason o;
     escrowId := escrowId o; conditions := conditions o;
     payments := payments o; documents := documents o;
     conditions_met := conditions_met o; verifications := verifications o |}.

Definition set_details (v : option Json) (o : Obj) : Obj :=
  {| docType := docType o; propertyId := propertyId o; address := address o;
     ownerId := ownerId o; details := v; status := status o;
     history := history o; createdAt := createdAt o; updatedAt := updatedAt o;
     transactionId := transactionId o; sellerId := sellerId o;
     buyerId := buyerId o; price := price o; paymentMethod := paymentMethod o;
     notes := notes o; cancellationReason := cancellationReason o;
     escrowId := escrowId o; conditions := conditions o;
     payments := payments o; documents := documents o;
     conditions_met := conditions_met o; verifications := verifications o |}.

Definition set_status (v : option string) (o : Obj) : Obj :=
  {| docType := docType o; propertyId := propertyId o; address := address o;
     ownerId := ownerId o; details := details o; status := v;
     history := history o; createdAt := createdAt o; updatedAt := updatedAt o;
     transactionId := transactionId o; sellerId := sellerId o;
     buyerId := buyerId o; price := price o; paymentMethod := paymentMethod o;
     notes := notes o; cancellationReason := cancellationReason o;
     escrowId := escrowId o; conditions := conditions o;
     payments := payments o; documents := documents o;
     conditions_met := conditions_met o; verifications := verifications o |}.

Definition set_history (v : option (list HistoryEntry)) (o : Obj) : Obj :=
  {| docType := docType o; propertyId := propertyId o; address := address o;
     ownerId := ownerId o; details := details o; status := status o;
     history := v; createdAt := createdAt o; updatedAt := updatedAt o;
     transactionId := transactionId o; sellerId := sellerId o;
     buyerId := buyerId o; price := price o; paymentMethod := paymentMethod o;
     notes := notes o; cancellationReason := cancellationReason o;
     escrowId := escrowId o; conditions := conditions o;
     payments := payments o; documents := documents o;
     conditions_met := conditions_met o; verifications := verifications o |}.

Definition set_updatedAt (v : option string) (o : Obj) : Obj :=
  {| docType := docType o; propertyId := propertyId o; address := address o;
     ownerId := ownerId o; details := details o; status := status o;
     history := history o; createdAt := createdAt o; updatedAt := v;
     transactionId := transactionId o; sellerId := sellerId o;
     buyerId := buyerId o; price := price o; paymentMethod := paymentMethod o;
     notes := notes o; cancellationReason := cancellationReason o;
     escrowId := escrowId o; conditions := conditions o;
     payments := payments o; documents := documents o;
     conditions_met := conditions_met o; verifications := verifications o |}.

Definition set_price (v : option JS.jnum) (o : Obj) : Obj :=
  {| docType := docType o; propertyId := propertyId o; address := address o;
     ownerId := ownerId o; details := details o; status := status o;
     history := history o; createdAt := createdAt o; updatedAt := updatedAt o;
     transactionId := transactionId o; sellerId := sellerId o;
     buyerId := buyerId o; price := v; paymentMethod := paymentMethod o;
     notes := notes o; cancellationReason := cancellationReason o;
     escrowId := escrowId o; conditions := conditions o;
     payments := payments o; documents := documents o;
     conditions_met := conditions_met o; verifications := verifications o |}.

Definition set_cancellationReason (v : option string) (o : Obj) : Obj :=
  {| docType := docType o; propertyId := propertyId o; address := address o;
     ownerId := ownerId o; details := details o; status := status o;
     history := history o; createdAt := createdAt o; updatedAt := updatedAt o;
     transactionId := transactionId o; sellerId := sellerId o;
     buyerId := buyerId o; price := price o; paymentMethod := paymentMethod o;
     notes := notes o; cancellationReason := v;
     escrowId := escrowId o; conditions := conditions o;
     payments := payments o; documents := documents o;
     conditions_met := conditions_met o; verifications := verifications o |}.

Definition set_payments (v : option (list Payment)) (o : Obj) : Obj :=
  {| docType := docType o; propertyId := propertyId o; address := address o;
     ownerId := ownerId o; details := details o; status := status o;
     history := history o; createdAt := createdAt o; updatedAt := updatedAt o;
     transactionId := transactionId o; sellerId := sellerId o;
     buyerId := buyerId o; price := price o; paymentMethod := paymentMethod o;
     notes := notes o; cancellationReason := cancellationReason o;
     escrowId := escrowId o; conditions := conditions o;
     payments := v; documents := documents o;
     conditions_met := conditions_met o; verifications := verifications o |}.

Definition set_documents (v : option (list Document)) (o : Obj) : Obj :=
  {| docType := docType o; propertyId := propertyId o; address := address o;
     ownerId := ownerId o; details := details o; status := status o;
     history := history o; createdAt := createdAt o; updatedAt := updatedAt o;
     transactionId := transactionId o; sellerId := sellerId o;
     buyerId := buyerId o; price := price o; paymentMethod := paymentMethod o;
     notes := notes o; cancellationReason := cancellationReason o;
     escrowId := escrowId o; conditions := conditions o;
     payments := payments o; documents := v;
     conditions_met := conditions_met o; verifications := verifications o |}.

Definition set_conditions_met (v : option (gmap string bool)) (o : Obj) : Obj :=
  {| docType := docType o; propertyId := propertyId o; address := address o;
     ownerId := ownerId o; details := details o; status := status o;
     history := history o; createdAt := createdAt o; updatedAt := updatedAt o;
     transactionId := transactionId o; sellerId := sellerId o;
     buyerId := buyerId o; price := price o; paymentMethod := paymentMethod o;
     notes := notes o; cancellationReason := cancellationReason o;
     escrowId := escrowId o; conditions := conditions o;
     payments := payments o; documents := documents o;
     conditions_met := v; verifications := verifications o |}.

Definition set_verifications (v : option (list Verification)) (o : Obj) : Obj :=
  {| docType := docType o; propertyId := propertyId o; address := address o;
     ownerId := ownerId o; details := details o; status := status o;
     history := history o; createdAt := createdAt o; updatedAt := updatedAt o;
     transactionId := transactionId o; sellerId := sellerId o;
     buyerId := buyerId o; price := price o; paymentMethod := paymentMethod o;
     notes := notes o; cancellationReason := cancellationReason o;
     escrowId := escrowId o; conditions := conditions o;
     payments := payments o; documents := documents o;
     conditions_met := conditions_met o; verifications := v |}.

(** *** What [JSON.parse(JSON.stringify(o))] returns

    The ledger holds JSON text.  Writing an object and reading it back
    keeps every field except the numeric ones, which lose [NaN], the
    infinities and the sign of zero ([JS.JSON_number]); an [undefined]
    field stays absent, and a value that [JSON.parse] built is read back as
    it was. *)

Definition JSON_payment (p : Payment) : Payment :=
  {| pay_paymentId := pay_paymentId p;
     pay_amount := JS.JSON_number (pay_amount p);
     pay_paymentMethod := pay_paymentMethod p;
     pay_details := pay_details p;
     pay_timestamp := pay_timestamp p |}.

Definition JSON_history (h : HistoryEntry) : HistoryEntry :=
  {| hist_type := hist_type h;
     hist_transactionId := hist_transactionId h;
     hist_escrowId := hist_escrowId h;
     hist_fromOwnerId := hist_fromOwnerId h;
     hist_toOwnerId := hist_toOwnerId h;
     hist_price := JS.JSON_number <$> hist_price h;
     hist_paymentMethod := hist_paymentMethod h;
     hist_details := hist_details h;
     hist_timestamp := hist_timestamp h |}.

Definition JSON_roundtrip (o : Obj) : Obj :=
  set_price (JS.JSON_number <$> price o)
    (set_payments ((λ paid : list Payment, JSON_payment <$> paid) <$> payments o)
      (set_history ((λ past : list HistoryEntry, JSON_history <$> past) <$> history o)
        o)).

(** ** The ledger stub and the invocation monad

    [ctx.stub] belongs to the Fabric shim, not to the contracts: it is taken
    to be a key-value store.  No method reads a key after writing it, so the
    methods do not depend on whether a read sees the writes of its own
    invocation. *)

Definition tx (A : Type) : Type :=
  gmap string Obj → gmap string Obj * outcome A.

#[global] Instance tx_ret : MRet tx := λ A a σ, (σ, Returns a).

#[global] Instance tx_bind : MBind tx := λ A B f m σ,
  match m σ with
  | (σ', Returns a) => f a σ'
  | (σ', Throws e) => (σ', Throws e)
  end.

Definition throw {A : Type} (e : error) : tx A := λ σ, (σ, Throws e).

(** [ctx.stub.getState(key)]: the object stored under [key], if any.  The
    source tests the returned bytes for emptiness; stored texts are never
    empty.  An [undefined] key names no record. *)
Definition getState (key : option string) : tx (option Obj) :=
  λ σ, (σ, Returns (key ≫= λ k, σ !! k)).

(** [ctx.stub.putState(key, Buffer.from(JSON.stringify(o)))]. *)
Definition putState (key : option string) (o : Obj) : tx () :=
  match key with
  | Some k => λ σ, (<[k := JSON_roundtrip o]> σ, Returns ())
  | None => throw StubError
  end.

(** [JSON.parse(text)], the argument being given by its parse result. *)
Definition JSON_parse {A : Type} (text : option A) : tx A :=
  match text with
  | Some v => mret v
  | None => throw SyntaxError
  end.

(** [a.push(x)] on a field that may be [undefined]. *)
Definition push {A : Type} (a : option (list A)) (x : A) : tx (list A) :=
  match a with
  | Some l => mret (l ++ [x])
  | None => throw TypeError
  end.

(** [escrow.payments.reduce((sum, p) => sum + p.amount, 0)] *)
Definition total_paid (ps : list Payment) : JS.number :=
  foldl (λ sum p, JS.add sum (JS.ToNumber (pay_amount p))) JS.zero ps.

(** [Math.abs(totalPaid - escrow.price) < 0.01], with [escrow.price]
    possibly [null] or [undefined] ([undefined] converts to [NaN]). *)
Definition price_number (o : Obj) : JS.number :=
  match price o with
  | Some v => JS.ToNumber v
  | None => JS.NaN
  end.

Definition tolerance : JS.number := JS.decimal 1 100.

Definition fully_paid (totalPaid : JS.number) (o : Obj) : bool :=
  JS.lt (JS.abs (JS.sub totalPaid (price_number o))) tolerance.

(** ** PropertyContract *)

Definition RegisterProperty (now : string)
    (propertyId address ownerId : string) (details : option Json) : tx Obj :=
  details ← JSON_parse details;
  let property :=
    {| docType := Some "property"; propertyId := Some propertyId;
       address := Some address; ownerId := Some ownerId;
       details := Some details; status := Some "active";
       history := Some []; createdAt := Some now; updatedAt := Some now;
       transactionId := None; sellerId := None; buyerId := None;
       price := None; paymentMethod := None; notes := None;
       cancellationReason := None; escrowId := None; conditions := None;
       payments := None; documents := None; conditions_met := None;
       verifications := None |} in
  putState (Some propertyId) property;;
  mret (JSON_roundtrip property).

Definition UpdateProperty (now : string)
    (propertyId : string) (newDetails : option Json) : tx Obj :=
  propertyAsBytes ← getState (Some propertyId);
  match propertyAsBytes with
  | None => throw NotFoundError
  | Some property =>
      updatedDetails ← JSON_parse newDetails;
      let property :=
        set_details (Some (spread (details property) updatedDetails)) property in
      let property := set_updatedAt (Some now) property in
      putState (Some propertyId) property;;
      mret (JSON_roundtrip property)
  end.

Definition TransferProperty (now : string)
    (propertyId currentOwnerId newOwnerId : string)
    (transactionDetails : option Json) : tx Obj :=
  propertyAsBytes ← getState (Some propertyId);
  match propertyAsBytes with
  | None => throw NotFoundError
  | Some property =>
      if decide (ownerId property ≠ Some currentOwnerId)
      then throw OwnershipMismatchError
      else
        parsedDetails ← JSON_parse transactionDetails;
        let transaction :=
          {| hist_type := "transfer"; hist_transactionId := None;
             hist_escrowId := None;
             hist_fromOwnerId := Some currentOwnerId;
             hist_toOwnerId := Some newOwnerId;
             hist_price := None; hist_paymentMethod := None;
             hist_details := Some parsedDetails;
             hist_timestamp := now |} in
        pushed ← push (history property) transaction;
        let property := set_history (Some pushed) property in
        let property := set_ownerId (Some newOwnerId) property in
        let property := set_updatedAt (Some now) property in
        putState (Some propertyId) property;;
        mret (JSON_roundtrip property)
  end.

(** ** TransactionContract *)

Definition CreateTransaction (now : string)
    (transactionId propertyId sellerId buyerId : string) (price : JS.number)
    (paymentMethod notes : string) : tx Obj :=
  propertyAsBytes ← getState (Some propertyId);
  match propertyAsBytes with
  | None => throw NotFoundError
  | Some property =>
      if decide (ownerId property ≠ Some sellerId)
      then throw OwnershipMismatchError
      else
        let transaction :=
          {| docType := Some "transaction";
             transactionId := Some transactionId;
             propertyId := Some propertyId; sellerId := Some sellerId;
             buyerId := Some buyerId; price := Some (JS.Num price);
             paymentMethod := Some paymentMethod;
             notes := Some (JS.or notes EmptyString);
             status := Some "pending";
             createdAt := Some now; updatedAt := Some now;
             address := None; ownerId := None; details := None;
             history := None; cancellationReason := None; escrowId := None;
             conditions := None; payments := None; documents := None;
             conditions_met := None; verifications := None |} in
        putState (Some transactionId) transaction;;
        mret (JSON_roundtrip transaction)
  end.

(** The parameter [transactionId] of the source is [key] here: the body also
    reads the field [transaction.transactionId]. *)
Definition CompleteTransaction (now : string) (key : string) : tx Obj :=
  transactionAsBytes ← getState (Some key);
  match transactionAsBytes with
  | None => throw NotFoundError
  | Some transaction =>
      if decide (status transaction ≠ Some "pending")
      then throw InvalidStateError
      else
        propertyAsBytes ← getState (propertyId transaction);
        match propertyAsBytes with
        | None => throw NotFoundError
        | Some property =>
            if decide (ownerId property ≠ sellerId transaction)
            then throw OwnershipMismatchError
            else
              let transferRecord :=
                {| hist_type := "transfer";
                   hist_transactionId := transactionId transaction;
                   hist_escrowId := None;
                   hist_fromOwnerId := sellerId transaction;
                   hist_toOwnerId := buyerId transaction;
                   hist_price := price transaction;
                   hist_paymentMethod := paymentMethod transaction;
                   hist_details := None;
                   hist_timestamp := now |} in
              pushed ← push (history property) transferRecord;
              let property := set_history (Some pushed) property in
              let property := set_ownerId (buyerId transaction) property in
              let property := set_updatedAt (Some now) property in
              let transaction := set_status (Some "completed") transaction in
              let transaction := set_updatedAt (Some now) transaction in
              putState (propertyId transaction) property;;
              putState (Some key) transaction;;
              mret (JSON_roundtrip transaction)
        end
  end.

Definition CancelTransaction (now : string)
    (transactionId reason : string) : tx Obj :=
  transactionAsBytes ← getState (Some transactionId);
  match transactionAsBytes with
  | None => throw NotFoundError
  | Some transaction =>
      if decide (status transaction ≠ Some "pending")
      then throw InvalidStateError
      else
        let transaction := set_status (Some "cancelled") transaction in
        let transaction :=
          set_cancellationReason
            (Some (JS.or reason "No reason provided")) transaction in
        let transaction := set_updatedAt (Some now) transaction in
        putState (Some transactionId) transaction;;
        mret (JSON_roundtrip transaction)
  end.

(** ** EscrowContract *)

(** [for (const condition of conditionsObj)
         escrow.conditions_met[condition.id] = false],
    from the elements not yet visited and the object built so far: reading
    [id] off a [null] element throws a [TypeError], which ends the loop. *)
Fixpoint for_of_conditions (items : list (option Condition))
    (met : gmap string bool) : option (gmap string bool) :=
  match items with
  | [] => Some met
  | None :: _ => None
  | Some condition :: items =>
      for_of_conditions items (JS.assign (cond_id condition) false met)
  end.

Definition CreateEscrow (now : string)
    (escrowId transactionId propertyId sellerId buyerId : string)
    (price : JS.number) (conditions : option Conditions) : tx Obj :=
  transactionAsBytes ← getState (Some transactionId);
  match transactionAsBytes with
  | None => throw NotFoundError
  | Some _ =>
      propertyAsBytes ← getState (Some propertyId);
      match propertyAsBytes with
      | None => throw NotFoundError
      | Some property =>
          if decide (ownerId property ≠ Some sellerId)
          then throw OwnershipMismatchError
          else
            conditionsObj ← JSON_parse conditions;
            let escrow :=
              {| docType := Some "escrow"; escrowId := Some escrowId;
                 transactionId := Some transactionId;
                 propertyId := Some propertyId; sellerId := Some sellerId;
                 buyerId := Some buyerId; price := Some (JS.Num price);
                 conditions := Some conditionsObj;
                 status := Some "created";
                 payments := Some []; documents := Some [];
                 conditions_met := Some ∅;
                 createdAt := Some now; updatedAt := Some now;
                 address := None; ownerId := None; details := None;
                 history := None; paymentMethod := None; notes := None;
                 cancellationReason := None; verifications := None |} in
            match conditionsObj with
            | NotIterable => throw TypeError
            | Elements items =>
                match for_of_conditions items ∅ with
                | None => throw TypeError
                | Some met =>
                    let escrow := set_conditions_met (Some met) escrow in
                    putState (Some escrowId) escrow;;
                    mret (JSON_roundtrip escrow)
                end
            end
      end
  end.

Definition AddPayment (now : string)
    (escrowId paymentId : string) (amount : JS.number)
    (paymentMethod : string) (paymentDetails : option Json) : tx Obj :=
  escrowAsBytes ← getState (Some escrowId);
  match escrowAsBytes with
  | None => throw NotFoundError
  | Some escrow =>
      if decide (status escrow ≠ Some "created"
                 ∧ status escrow ≠ Some "in_progress")
      then throw InvalidStateError
      else
        parsedDetails ← JSON_parse paymentDetails;
        let payment :=
          {| pay_paymentId := paymentId; pay_amount := JS.Num amount;
             pay_paymentMethod := paymentMethod;
             pay_details := parsedDetails; pay_timestamp := now |} in
        pushed ← push (payments escrow) payment;
        let escrow := set_payments (Some pushed) escrow in
        let totalPaid := total_paid pushed in
        let escrow :=
          if bool_decide (status escrow = Some "created")
             && JS.lt JS.zero totalPaid
          then set_status (Some "in_progress") escrow
          else escrow in
        let escrow := set_updatedAt (Some now) escrow in
        putState (Some escrowId) escrow;;
        mret (JSON_roundtrip escrow)
  end.

Definition AddDocument (now : string)
    (escrowId documentId documentType documentHash : string)
    (documentMetadata : option Json) : tx Obj :=
  escrowAsBytes ← getState (Some escrowId);
  match escrowAsBytes with
  | None => throw NotFoundError
  | Some escrow =>
      if decide (status escrow ≠ Some "created"
                 ∧ status escrow ≠ Some "in_progress")
      then throw InvalidStateError
      else
        parsedMetadata ← JSON_parse documentMetadata;
        let document :=
          {| doc_documentId := documentId; doc_documentType := documentType;
             doc_documentHash := documentHash;
             doc_metadata := parsedMetadata; doc_timestamp := now |} in
        pushed ← push (documents escrow) document;
        let escrow := set_documents (Some pushed) escrow in
        let escrow := set_updatedAt (Some now) escrow in
        putState (Some escrowId) escrow;;
        mret (JSON_roundtrip escrow)
  end.

Definition MarkConditionMet (now : string)
    (escrowId conditionId verifierId : string)
    (verificationDetails : option Json) : tx Obj :=
  escrowAsBytes ← getState (Some escrowId);
  match escrowAsBytes with
  | None => throw NotFoundError
  | Some escrow =>
      if decide (status escrow ≠ Some "created"
                 ∧ status escrow ≠ Some "in_progress")
      then throw InvalidStateError
      else
        match conditions_met escrow with
        | None => throw TypeError
        | Some met =>
            if negb (JS.has_property conditionId met)
            then throw UnknownConditionError
            else
              let met := JS.assign conditionId true met in
              let escrow := set_conditions_met (Some met) escrow in
              let escrow :=
                match verifications escrow with
                | None => set_verifications (Some []) escrow
                | Some _ => escrow
                end in
              parsedDetails ← JSON_parse verificationDetails;
              let verification :=
                {| ver_conditionId := conditionId;
                   ver_verifierId := verifierId;
                   ver_details := parsedDetails; ver_timestamp := now |} in
              pushed ← push (verifications escrow) verification;
              let escrow := set_verifications (Some pushed) escrow in
              let allConditionsMet := JS.every_true met in
              match payments escrow with
              | None => throw TypeError
              | Some paid =>
                  let totalPaid := total_paid paid in
                  let escrow :=
                    if allConditionsMet && fully_paid totalPaid escrow
                    then set_status (Some "ready_for_completion") escrow
                    else escrow in
                  let escrow := set_updatedAt (Some now) escrow in
                  putState (Some escrowId) escrow;;
                  mret (JSON_roundtrip escrow)
              end
        end
  end.

(** The parameter [escrowId] of the source is [key] here: the body also reads
    the field [escrow.escrowId]. *)
Definition CompleteEscrow (now : string) (key : string) : tx Obj :=
  escrowAsBytes ← getState (Some key);
  match escrowAsBytes with
  | None => throw NotFoundError
  | Some escrow =>
      if decide (status escrow ≠ Some "ready_for_completion")
      then throw InvalidStateError
      else
        propertyAsBytes ← getState (propertyId escrow);
        match propertyAsBytes with
        | None => throw NotFoundError
        | Some property =>
            if decide (ownerId property ≠ sellerId escrow)
            then throw OwnershipMismatchError
            else
              transactionAsBytes ← getState (transactionId escrow);
              match transactionAsBytes with
              | None => throw NotFoundError
              | Some transaction =>
                  let transferRecord :=
                    {| hist_type := "transfer";
                       hist_transactionId := transactionId escrow;
                       hist_escrowId := escrowId escrow;
                       hist_fromOwnerId := sellerId escrow;
                       hist_toOwnerId := buyerId escrow;
                       hist_price := price escrow;
                       hist_paymentMethod := None;
                       hist_details := None;
                       hist_timestamp := now |} in
                  pushed ← push (history property) transferRecord;
                  let property := set_history (Some pushed) property in
                  let property := set_ownerId (buyerId escrow) property in
                  let property := set_updatedAt (Some now) property in
                  let transaction :=
                    set_status (Some "completed") transaction in
                  let transaction := set_updatedAt (Some now) transaction in
                  let escrow := set_status (Some "completed") escrow in
                  let escrow := set_updatedAt (Some now) escrow in
                  putState (propertyId escrow) property;;
                  putState (transactionId escrow) transaction;;
                  putState (Some key) escrow;;
                  mret (JSON_roundtrip escrow)
              end
        end
  end.

Definition CancelEscrow (now : string) (escrowId reason : string) : tx Obj :=
  escrowAsBytes ← getState (Some escrowId);
  match escrowAsBytes with
  | None => throw NotFoundError
  | Some escrow =>
      if decide (status escrow = Some "completed"
                 ∨ status escrow = Some "cancelled")
      then throw InvalidStateError
      else
        let escrow := set_status (Some "cancelled") escrow in
        let escrow :=
          set_cancellationReason
            (Some (JS.or reason "No reason provided")) escrow in
        let escrow := set_updatedAt (Some now) escrow in
        transactionAsBytes ← getState (transactionId escrow);
        match transactionAsBytes with
        | Some transaction =>
            if decide (status transaction ≠ Some "completed")
            then
              let transaction := set_status (Some "cancelled") transaction in
              let transaction := set_updatedAt (Some now) transaction in
              putState (transactionId escrow) transaction
            else mret ()
        | None => mret ()
        end;;
        putState (Some escrowId) escrow;;
        mret (JSON_roundtrip escrow)
  end.

(** ** Invocations and committed histories

    An invocation names one state-changing method of one of the three
    contracts together with its arguments. *)
Inductive call : Type :=
| CallRegisterProperty (propertyId address ownerId : string)
    (details : option Json)
| CallUpdateProperty (propertyId : string) (newDetails : option Json)
| CallTransferProperty (propertyId currentOwnerId newOwnerId : string)
    (transactionDetails : option Json)
| CallCreateTransaction (transactionId propertyId sellerId buyerId : string)
    (price : JS.number) (paymentMethod notes : string)
| CallCompleteTransaction (transactionId : string)
| CallCancelTransaction (transactionId reason : string)
| CallCreateEscrow (escrowId transactionId propertyId sellerId buyerId : string)
    (price : JS.number) (conditions : option Conditions)
| CallAddPayment (escrowId paymentId : string) (amount : JS.number)
    (paymentMethod : string) (paymentDetails : option Json)
| CallAddDocument (escrowId documentId documentType documentHash : string)
    (documentMetadata : option Json)
| CallMarkConditionMet (escrowId conditionId verifierId : string)
    (verificationDetails : option Json)
| CallCompleteEscrow (escrowId : string)
| CallCancelEscrow (escrowId reason : string).

Definition invoke (now : string) (c : call) : tx Obj :=
  match c with
  | CallRegisterProperty i a o d => RegisterProperty now i a o d
  | CallUpdateProperty i d => UpdateProperty now i d
  | CallTransferProperty i c n d => TransferProperty now i c n d
  | CallCreateTransaction t p s b pr m n => CreateTransaction now t p s b pr m n
  | CallCompleteTransaction t => CompleteTransaction now t
  | CallCancelTransaction t r => CancelTransaction now t r
  | CallCreateEscrow e t p s b pr cs => CreateEscrow now e t p s b pr cs
  | CallAddPayment e p a m d => AddPayment now e p a m d
  | CallAddDocument e d t h m => AddDocument now e d t h m
  | CallMarkConditionMet e c v d => MarkConditionMet now e c v d
  | CallCompleteEscrow e => CompleteEscrow now e
  | CallCancelEscrow e r => CancelEscrow now e r
  end.

(** The methods of [EscrowContract]. *)
Definition escrow_call (c : call) : bool :=
  match c with
  | CallCreateEscrow _ _ _ _ _ _ _ | CallAddPayment _ _ _ _ _
  | CallAddDocument _ _ _ _ _ | CallMarkConditionMet _ _ _ _
  | CallCompleteEscrow _ | CallCancelEscrow _ _ => true
  | _ => false
  end.

(** The ledger commits the writes of an invocation that returns and discards
    those of one that throws. *)
Definition commit (now : string) (c : call) (σ : gmap string Obj) : gmap string Obj :=
  match invoke now c σ with
  | (σ', Returns _) => σ'
  | (_, Throws _) => σ
  end.

(** The world state after a sequence of invocations, each with its
    timestamp. *)
Definition run (cs : list (string * call)) (σ : gmap string Obj) : gmap string Obj :=
  foldl (λ σ c, commit c.1 c.2 σ) σ cs.

(** ** Vocabulary of the properties *)

Implicit Types (σ : gmap string Obj) (o escrow property transaction : Obj).
Implicit Types (c : call) (now key : string).

(** The statuses in which payments, documents and verifications are
    accepted, the terminal statuses, and the statuses that assert full
    payment. *)
Definition open_for_updates o : Prop :=
  status o = Some "created" ∨ status o = Some "in_progress".

Definition terminal o : Prop :=
  status o = Some "completed" ∨ status o = Some "cancelled".

Definition settled o : Prop :=
  status o = Some "ready_for_completion" ∨ status o = Some "completed".

(** [abs(sum(payments.amount) - price) < 0.01], as the contract computes
    it. *)
Definition payments_cover_price o : Prop :=
  ∃ paid, payments o = Some paid ∧ fully_paid (total_paid paid) o = true.

(** *** RegisterProperty *)

(** The record [RegisterProperty] builds. *)
Definition new_property now (propertyId address ownerId : string)
    (parsed : Json) : Obj :=
  {| docType := Some "property"; propertyId := Some propertyId;
     address := Some address; ownerId := Some ownerId;
     details := Some parsed; status := Some "active";
     history := Some []; createdAt := Some now; updatedAt := Some now;
     transactionId := None; sellerId := None; buyerId := None;
     price := None; paymentMethod := None; notes := None;
     cancellationReason := None; escrowId := None; conditions := None;
     payments := None; documents := None; conditions_met := None;
     verifications := None |}.

(** Registration as the specification words it: rejected when the id is
    occupied, performed otherwise. *)
Definition RegisterProperty_rejects_occupied σ now
    (propertyId address ownerId : string) (details : option Json) : Prop :=
  (is_Some (σ !! propertyId) →
     ∃ σ', RegisterProperty now propertyId address ownerId details σ
           = (σ', Throws AlreadyExistsError)) ∧
  (σ !! propertyId = None →
     ∃ r, RegisterProperty now propertyId address ownerId details σ
          = (<[propertyId := r]> σ, Returns r) ∧
          history r = Some [] ∧ status r = Some "active").

(** *** CompleteEscrow *)

(** The history entry [CompleteEscrow] appends. *)
Definition transferRecord now escrow : HistoryEntry :=
  {| hist_type := "transfer";
     hist_transactionId := transactionId escrow;
     hist_escrowId := escrowId escrow;
     hist_fromOwnerId := sellerId escrow;
     hist_toOwnerId := buyerId escrow;
     hist_price := price escrow;
     hist_paymentMethod := None;
     hist_details := None;
     hist_timestamp := now |}.

(** What [CompleteEscrow now key] does in a ledger that holds [escrow] under
    [key]: when it throws the two errors, when it returns, and what it has
    written when it returns.  The effect on the property record is stated
    for the keys that satisfy [own_key key pk tk], [pk] and [tk] being the
    escrow's [propertyId] and [transactionId]. *)
Definition CompleteEscrow_behaviour (own_key : string → string → string → Prop)
    σ now key escrow : Prop :=
  (status escrow ≠ Some "ready_for_completion" →
     CompleteEscrow now key σ = (σ, Throws InvalidStateError)) ∧
  (∀ pk property,
     status escrow = Some "ready_for_completion" →
     propertyId escrow = Some pk →
     σ !! pk = Some property →
     ownerId property ≠ sellerId escrow →
     CompleteEscrow now key σ = (σ, Throws OwnershipMismatchError)) ∧
  (∀ pk tk property transaction past,
     status escrow = Some "ready_for_completion" →
     propertyId escrow = Some pk →
     σ !! pk = Some property →
     ownerId property = sellerId escrow →
     history property = Some past →
     transactionId escrow = Some tk →
     σ !! tk = Some transaction →
     ∃ σ' r, CompleteEscrow now key σ = (σ', Returns r)) ∧
  (∀ σ' r,
     CompleteEscrow now key σ = (σ', Returns r) →
     ∃ pk tk property transaction past,
       propertyId escrow = Some pk ∧ σ !! pk = Some property ∧
       transactionId escrow = Some tk ∧ σ !! tk = Some transaction ∧
       history property = Some past ∧
       status <$> σ' !! tk = Some (Some "completed") ∧
       status <$> σ' !! key = Some (Some "completed") ∧
       (own_key key pk tk →
          ∃ property',
            σ' !! pk = Some property' ∧
            ownerId property' = buyerId escrow ∧
            history property'
            = Some (JSON_history <$> (past ++ [transferRecord now escrow])))).

(** The property record has a key of its own. *)
Definition property_key_apart (key pk tk : string) : Prop :=
  pk ≠ tk ∧ pk ≠ key.

(** *** CancelEscrow *)

(** Cancelling an escrow whose transaction is not on the ledger;
    [recorded reason] is the cancellation reason found afterwards. *)
Definition CancelEscrow_without_transaction (recorded : string → string)
    σ now key (reason : string) : Prop :=
  ∀ escrow tk,
    σ !! key = Some escrow →
    ¬ terminal escrow →
    transactionId escrow = Some tk →
    σ !! tk = None →
    ∃ r,
      CancelEscrow now key reason σ = (<[key := r]> σ, Returns r) ∧
      status r = Some "cancelled" ∧
      cancellationReason r = Some (recorded reason) ∧
      <[key := r]> σ !! tk = None.

(** *** Reachable ledgers *)

(** The ledgers reached from the empty one by invocations that satisfy
    [admitted] in the state they are submitted in. *)
Inductive reachable_by (admitted : gmap string Obj → call → Prop) :
    gmap string Obj → Prop :=
| reachable_empty : reachable_by admitted ∅
| reachable_commit σ now c :
    reachable_by admitted σ → admitted σ c →
    reachable_by admitted (commit now c σ).

Definition any_call σ c : Prop := True.

(** Every invocation of a sequence is admitted in the state it meets. *)
Fixpoint admitted_run (admitted : gmap string Obj → call → Prop)
    (cs : list (string * call)) σ : Prop :=
  match cs with
  | [] => True
  | tc :: cs =>
      admitted σ tc.2 ∧ admitted_run admitted cs (commit tc.1 tc.2 σ)
  end.

(** [CompleteEscrow] is submitted only for an escrow whose [transactionId]
    does not name another escrow record. *)
Definition transaction_is_no_escrow σ c : Prop :=
  match c with
  | CallCompleteEscrow key =>
      ∀ escrow tk linked,
        σ !! key = Some escrow → transactionId escrow = Some tk →
        σ !! tk = Some linked →
        tk = key ∨ docType linked ≠ Some "escrow"
  | _ => True
  end.

(** *** Ownership and history *)

(** The owner named by the last successful registration of each id. *)
Definition registrant_step (reg : gmap string string) c : gmap string string :=
  match c with
  | CallRegisterProperty propertyId _ ownerId (Some _) =>
      <[propertyId := ownerId]> reg
  | _ => reg
  end.

Definition registrants (cs : list (string * call)) : gmap string string :=
  foldl (λ reg tc, registrant_step reg tc.2) ∅ cs.

(** The owner a history determines: the [toOwnerId] of its last entry, or
    the registrant when it is empty. *)
Definition current_owner (reg : gmap string string) key
    (past : list HistoryEntry) : option string :=
  match last past with
  | Some entry => hist_toOwnerId entry
  | None => reg !! key
  end.

(** The record under [key] is consistent: a property has a
    history, and the owner of a record with a history is the one its history
    determines. *)
Definition owner_consistent (reg : gmap string string) key o : Prop :=
  (docType o = Some "property" → is_Some (history o)) ∧
  ∀ past, history o = Some past → ownerId o = current_owner reg key past.

(** *** Escrow records

    A stored record is its own JSON round trip, and an escrow record is
    never [pending], has no history, and is fully paid when settled. *)
Definition escrow_invariant o : Prop :=
  JSON_roundtrip o = o ∧
  (docType o = Some "escrow" →
   status o ≠ Some "pending" ∧ history o = None ∧
   (settled o → payments_cover_price o)).

(** *** Arithmetic of the payment total *)

(** The exact rational sum of the payment amounts, when all are finite. *)
Fixpoint exact_total (acc : Q) (paid : list Payment) : option Q :=
  match paid with
  | [] => Some acc
  | p :: paid =>
      match JS.to_Q (JS.ToNumber (pay_amount p)) with
      | Some a => exact_total (acc + a)%Q paid
      | None => None
      end
  end.

(** The computed total denotes the exact sum. *)
Definition sums_exactly (paid : list Payment) : Prop :=
  ∃ computed exact,
    JS.to_Q (total_paid paid) = Some computed ∧
    exact_total 0%Q paid = Some exact ∧
    (computed == exact)%Q.

(** [x + y] is computed without rounding. *)
Definition exact_add (x y : JS.number) : bool :=
  match JS.to_Q x, JS.to_Q y, JS.to_Q (JS.add x y) with
  | Some a, Some b, Some c => Qeq_bool c (a + b)
  | _, _, _ => false
  end.

(** No addition of the accumulation rounds. *)
Fixpoint no_rounding (sum : JS.number) (paid : list Payment) : bool :=
  match paid with
  | [] => true
  | p :: paid =>
      exact_add sum (JS.ToNumber (pay_amount p))
      && no_rounding (JS.add sum (JS.ToNumber (pay_amount p))) paid
  end.

(** *** Settled escrows

    The specification's invariant is about numbers: the payment amounts
    and the price are numbers, and their exact difference is small. *)

(** A numeric field that holds a finite number, as a rational. *)
Definition number_Q (v : JS.jnum) : option Q :=
  match v with
  | JS.Num x => JS.to_Q x
  | JS.Null => None
  end.

(** [abs(sum(payments.amount) - price) < 0.01] over the rationals: the
    payment amounts and the price are finite numbers, and the exact sum of
    the amounts differs from the price by less than one hundredth. *)
Definition within_tolerance o : Prop :=
  ∃ paid total cost,
    payments o = Some paid ∧
    Forall (λ p : Payment, is_Some (number_Q (pay_amount p))) paid ∧
    exact_total 0%Q paid = Some total ∧
    price o ≫= number_Q = Some cost ∧
    (Qabs (total - cost) < 1 # 100)%Q.

(** Every settled escrow of the ledger is paid, as the specification words
    it. *)
Definition settled_escrows_paid σ : Prop :=
  ∀ key escrow,
    σ !! key = Some escrow →
    docType escrow = Some "escrow" →
    settled escrow →
    within_tolerance escrow.

(** A finite double: neither [NaN] nor an infinity, mantissa and exponent
    in the canonical form of binary64. *)
Definition finite_double (x : JS.number) : bool :=
  match x with
  | S754_zero _ => true
  | S754_finite _ m e => bounded JS.prec JS.emax m e
  | S754_infinity _ | S754_nan => false
  end.

(** The price given to [CreateEscrow] and the amount given to [AddPayment]
    parse to finite doubles. *)
Definition finite_numbers c : Prop :=
  match c with
  | CallCreateEscrow _ _ _ _ _ price _ => finite_double price = true
  | CallAddPayment _ _ amount _ _ => finite_double amount = true
  | _ => True
  end.

(** The invocations admitted by the amended invariant. *)
Definition sound_sale σ c : Prop :=
  transaction_is_no_escrow σ c ∧ finite_numbers c.

(** [x - y] is computed without rounding. *)
Definition exact_sub (x y : JS.number) : bool :=
  match JS.to_Q x, JS.to_Q y, JS.to_Q (JS.sub x y) with
  | Some a, Some b, Some c => Qeq_bool c (a - b)
  | _, _, _ => false
  end.

(** The readiness test of [MarkConditionMet] passes on the payments and the
    price of the record, the price being a number. *)
Definition paid_in_binary64 o : Prop :=
  ∃ paid cost,
    payments o = Some paid ∧ price o = Some (JS.Num cost) ∧
    JS.lt (JS.abs (JS.sub (total_paid paid) cost)) tolerance = true.

(** No operation of the readiness test rounds on the payments and the price
    of the record: no addition of the total, and not the subtraction. *)
Definition computed_exactly o : Prop :=
  ∃ paid cost,
    payments o = Some paid ∧ price o = Some (JS.Num cost) ∧
    no_rounding JS.zero paid = true ∧
    exact_sub (total_paid paid) cost = true.

(** A numeric field that holds a finite double, and the records whose
    price and payment amounts are such fields. *)
Definition finite_field (v : JS.jnum) : Prop :=
  match v with
  | JS.Num x => finite_double x = true
  | JS.Null => False
  end.

Definition numeric_fields o : Prop :=
  docType o = Some "escrow" →
  (∃ v, price o = Some v ∧ finite_field v) ∧
  ∀ paid, payments o = Some paid →
          Forall (λ p : Payment, finite_field (pay_amount p)) paid.

(** ** Read-only methods

    [GetProperty], [GetTransaction] and [GetEscrow] return the stored text
    of the record under the key, whatever its [docType]; they differ in the
    message of their error only. *)

Definition GetProperty (propertyId : string) : tx Obj :=
  propertyAsBytes ← getState (Some propertyId);
  match propertyAsBytes with
  | None => throw NotFoundError
  | Some property => mret property
  end.

Definition GetTransaction (transactionId : string) : tx Obj :=
  transactionAsBytes ← getState (Some transactionId);
  match transactionAsBytes with
  | None => throw NotFoundError
  | Some transaction => mret transaction
  end.

Definition GetEscrow (escrowId : string) : tx Obj :=
  escrowAsBytes ← getState (Some escrowId);
  match escrowAsBytes with
  | None => throw NotFoundError
  | Some escrow => mret escrow
  end.

(** ** Keys of an invocation *)

(** The key an invocation is addressed to: its first argument. *)
Definition call_key c : string :=
  match c with
  | CallRegisterProperty k _ _ _ | CallUpdateProperty k _
  | CallTransferProperty k _ _ _ | CallCreateTransaction k _ _ _ _ _ _
  | CallCompleteTransaction k | CallCancelTransaction k _
  | CallCreateEscrow k _ _ _ _ _ _ | CallAddPayment k _ _ _ _
  | CallAddDocument k _ _ _ _ | CallMarkConditionMet k _ _ _
  | CallCompleteEscrow k | CallCancelEscrow k _ => k
  end.

(** The three methods that write a fresh record under their key. *)
Definition creates c : bool :=
  match c with
  | CallRegisterProperty _ _ _ _ | CallCreateTransaction _ _ _ _ _ _ _
  | CallCreateEscrow _ _ _ _ _ _ _ => true
  | _ => false
  end.

(** The methods that update the escrow they are addressed to. *)
Definition updates_escrow c : bool :=
  match c with
  | CallAddPayment _ _ _ _ _ | CallAddDocument _ _ _ _ _
  | CallMarkConditionMet _ _ _ _ | CallCompleteEscrow _
  | CallCancelEscrow _ _ => true
  | _ => false
  end.

(** The key a field of the record under [key] names, if any. *)
Definition linked_key σ key (field : Obj → option string) : list string :=
  match σ !! key with
  | Some o => match field o with Some k => [k] | None => [] end
  | None => []
  end.

(** The keys an invocation may write: its own and, for the completions and
    [CancelEscrow], those its record links to. *)
Definition footprint σ c : list string :=
  match c with
  | CallCompleteTransaction key => key :: linked_key σ key propertyId
  | CallCompleteEscrow key =>
      key :: linked_key σ key propertyId ++ linked_key σ key transactionId
  | CallCancelEscrow key _ => key :: linked_key σ key transactionId
  | _ => [call_key c]
  end.

(** ** Vocabulary of the further properties *)

(** The order of the escrow statuses: forward along
    created, in_progress, ready_for_completion, completed, or to cancelled
    from a status that is not terminal. *)
Definition escrow_progress (s s' : option string) : Prop :=
  s' = s ∨
  (s = Some "created" ∧ s' = Some "in_progress") ∨
  ((s = Some "created" ∨ s = Some "in_progress")
   ∧ s' = Some "ready_for_completion") ∨
  (s = Some "ready_for_completion" ∧ s' = Some "completed") ∨
  (s ≠ Some "completed" ∧ s ≠ Some "cancelled" ∧ s' = Some "cancelled").

(** An array field after an invocation: the old elements, as the JSON round
    trip [f] leaves them, followed by new ones; an absent field stays
    absent. *)
Definition grows {A : Type} (f : A → A) (old new : option (list A)) : Prop :=
  match old with
  | Some l => ∃ extra, new = Some (f <$> (l ++ extra))
  | None => new = None
  end.

(** The terms of a sale: the identity fields of a record and its price. *)
Definition same_terms o o' : Prop :=
  docType o' = docType o ∧ propertyId o' = propertyId o ∧
  transactionId o' = transactionId o ∧ escrowId o' = escrowId o ∧
  sellerId o' = sellerId o ∧ buyerId o' = buyerId o ∧
  price o' = JS.JSON_number <$> price o ∧
  createdAt o' = createdAt o.

(** The ids that [CreateEscrow] enters into [conditions_met]: those of the
    elements, except "__proto__", whose assignment changes nothing. *)
Definition declared (items : list (option Condition)) (k : string) : Prop :=
  Some k ∈ (λ item : option Condition, cond_id <$> item) <$> items
  ∧ k ≠ "__proto__".

(** The record [CreateEscrow] builds. *)
Definition new_escrow now (escrowId transactionId propertyId sellerId buyerId : string)
    (price : JS.number) (conditionsObj : Conditions)
    (met : gmap string bool) : Obj :=
  {| docType := Some "escrow"; escrowId := Some escrowId;
     transactionId := Some transactionId;
     propertyId := Some propertyId; sellerId := Some sellerId;
     buyerId := Some buyerId; price := Some (JS.Num price);
     conditions := Some conditionsObj;
     status := Some "created";
     payments := Some []; documents := Some [];
     conditions_met := Some met;
     createdAt := Some now; updatedAt := Some now;
     address := None; ownerId := None; details := None;
     history := None; paymentMethod := None; notes := None;
     cancellationReason := None; verifications := None |}.

(** The record [CreateTransaction] builds. *)
Definition new_transaction now (transactionId propertyId sellerId buyerId : string)
    (price : JS.number) (paymentMethod notes : string) : Obj :=
  {| docType := Some "transaction";
     transactionId := Some transactionId;
     propertyId := Some propertyId; sellerId := Some sellerId;
     buyerId := Some buyerId; price := Some (JS.Num price);
     paymentMethod := Some paymentMethod;
     notes := Some (JS.or notes EmptyString);
     status := Some "pending";
     createdAt := Some now; updatedAt := Some now;
     address := None; ownerId := None; details := None;
     history := None; cancellationReason := None; escrowId := None;
     conditions := None; payments := None; documents := None;
     conditions_met := None; verifications := None |}.

(** The history entries [TransferProperty] and [CompleteTransaction]
    append. *)
Definition directTransfer now (currentOwnerId newOwnerId : string)
    (parsedDetails : Json) : HistoryEntry :=
  {| hist_type := "transfer"; hist_transactionId := None;
     hist_escrowId := None;
     hist_fromOwnerId := Some currentOwnerId;
     hist_toOwnerId := Some newOwnerId;
     hist_price := None; hist_paymentMethod := None;
     hist_details := Some parsedDetails;
     hist_timestamp := now |}.

Definition transactionRecord now transaction : HistoryEntry :=
  {| hist_type := "transfer";
     hist_transactionId := transactionId transaction;
     hist_escrowId := None;
     hist_fromOwnerId := sellerId transaction;
     hist_toOwnerId := buyerId transaction;
     hist_price := price transaction;
     hist_paymentMethod := paymentMethod transaction;
     hist_details := None;
     hist_timestamp := now |}.

End Chaincode.

(** ** Example ledgers

    The examples take [unit] for the opaque JSON values: every free-form
    argument is the text of one and the same value. *)

Definition json : option unit := Some tt.

Definition no_spread (a : option unit) (b : unit) : unit := b.

Definition c1 : @Condition unit := {| cond_id := "c1"; cond_body := tt |}.

(** The text of an array with the single condition [c1]. *)
Definition only_c1 : option (@Conditions unit) := Some (Elements [Some c1]).

(** The sale of the specification's example: price 120000.00, payments of
    70000.00 and 50000.00, one condition [c1]. *)
Definition sale_opened : list (string * @call unit) :=
  [ ("t0", CallRegisterProperty "P" "1 Main Street" "alice" json);
    ("t1", CallCreateTransaction "T" "P" "alice" "bob" (JS.of_Z 120000) "wire" EmptyString);
    ("t2", CallCreateEscrow "E" "T" "P" "alice" "bob" (JS.of_Z 120000) only_c1) ].

Definition sale_ready : list (string * @call unit) :=
  sale_opened ++
  [ ("t3", CallAddPayment "E" "pay-1" (JS.of_Z 70000) "wire" json);
    ("t4", CallAddPayment "E" "pay-2" (JS.of_Z 50000) "wire" json);
    ("t5", CallMarkConditionMet "E" "c1" "notary" json) ].

Definition sale_completed : list (string * @call unit) :=
  sale_ready ++ [ ("t6", CallCompleteEscrow "E") ].

Definition opened_ledger : gmap string (@Obj unit) := run no_spread sale_opened ∅.
Definition ready_ledger : gmap string (@Obj unit) := run no_spread sale_ready ∅.
Definition completed_ledger : gmap string (@Obj unit) := run no_spread sale_completed ∅.

(** An escrow created with the property's key as its [transactionId]:
    [CreateEscrow] only checks that the key is occupied. *)
Definition shared_key_sale : list (string * @call unit) :=
  [ ("t0", CallRegisterProperty "P" "1 Main Street" "alice" json);
    ("t1", CallCreateEscrow "E" "P" "P" "alice" "bob" (JS.of_Z 120000) only_c1);
    ("t2", CallAddPayment "E" "pay-1" (JS.of_Z 120000) "wire" json);
    ("t3", CallMarkConditionMet "E" "c1" "notary" json) ].

Definition shared_key_ledger : gmap string (@Obj unit) :=
  run no_spread shared_key_sale ∅.

(** A second escrow [E2] created with the key of the unpaid escrow [E] as
    its [transactionId], then paid, verified and completed. *)
Definition linked_escrows : list (string * @call unit) :=
  sale_opened ++
  [ ("t3", CallCreateEscrow "E2" "E" "P" "alice" "carol" (JS.of_Z 50000) only_c1);
    ("t4", CallAddPayment "E2" "pay-1" (JS.of_Z 50000) "wire" json);
    ("t5", CallMarkConditionMet "E2" "c1" "notary" json);
    ("t6", CallCompleteEscrow "E2") ].

(** Two sales of the property [P], both ready for completion: the example
    sale to bob and a second one, [T2] with escrow [E2], to carol. *)
Definition two_sales_ready : list (string * @call unit) :=
  sale_ready ++
  [ ("t6", CallCreateTransaction "T2" "P" "alice" "carol" (JS.of_Z 50000) "wire" EmptyString);
    ("t7", CallCreateEscrow "E2" "T2" "P" "alice" "carol" (JS.of_Z 50000) only_c1);
    ("t8", CallAddPayment "E2" "pay-3" (JS.of_Z 50000) "wire" json);
    ("t9", CallMarkConditionMet "E2" "c1" "notary" json) ].

Definition two_sales_ledger : gmap string (@Obj unit) :=
  run no_spread two_sales_ready ∅.

(** The example sale with its condition verified before the price is
    paid. *)
Definition late_payment : list (string * @call unit) :=
  sale_opened ++
  [ ("t3", CallMarkConditionMet "E" "c1" "notary" json);
    ("t4", CallAddPayment "E" "pay-1" (JS.of_Z 120000) "wire" json) ].

Definition late_payment_ledger : gmap string (@Obj unit) :=
  run no_spread late_payment ∅.

(** An escrow whose price text does not parse, verified and completed
    without any payment. *)
Definition unpriced_sale : list (string * @call unit) :=
  [ ("t0", CallRegisterProperty "P" "1 Main Street" "alice" json);
    ("t1", CallCreateTransaction "T" "P" "alice" "bob" (JS.of_Z 120000) "wire" EmptyString);
    ("t2", CallCreateEscrow "E" "T" "P" "alice" "bob" JS.NaN only_c1);
    ("t3", CallMarkConditionMet "E" "c1" "notary" json);
    ("t4", CallCompleteEscrow "E") ].

(** A sale at 10^16, paid with 10^16 and 1: the computed total is 10^16. *)
Definition rounded_sale : list (string * @call unit) :=
  [ ("t0", CallRegisterProperty "P" "1 Main Street" "alice" json);
    ("t1", CallCreateTransaction "T" "P" "alice" "bob" (JS.of_Z (10 ^ 16)) "wire" EmptyString);
    ("t2", CallCreateEscrow "E" "T" "P" "alice" "bob" (JS.of_Z (10 ^ 16)) only_c1);
    ("t3", CallAddPayment "E" "pay-1" (JS.of_Z (10 ^ 16)) "wire" json);
    ("t4", CallAddPayment "E" "pay-2" (JS.of_Z 1) "wire" json);
    ("t5", CallMarkConditionMet "E" "c1" "notary" json);
    ("t6", CallCompleteEscrow "E") ].

(** An escrow whose transaction is not on the ledger. *)
Definition orphan_escrow : @Obj unit :=
  {| docType := Some "escrow"; escrowId := Some "E";
     transactionId := Some "T"; propertyId := Some "P";
     sellerId := Some "alice"; buyerId := Some "bob";
     price := Some (JS.Num (JS.of_Z 120000));
     conditions := only_c1; status := Some "in_progress";
     payments := Some []; documents := Some [];
     conditions_met := Some {[ "c1" := false ]};
     createdAt := Some "t0"; updatedAt := Some "t0";
     address := None; ownerId := None; details := None; history := None;
     paymentMethod := None; notes := None; cancellationReason := None;
     verifications := None |}.

Definition orphan_ledger : gmap string (@Obj unit) := {[ "E" := orphan_escrow ]}.

(** A payment of the given amount. *)
Definition payment_of (x : JS.number) : @Payment unit :=
  {| pay_paymentId := "pay"; pay_amount := JS.Num x;
     pay_paymentMethod := "wire"; pay_details := tt; pay_timestamp := "t" |}.

(** * Properties *)

Section Properties.

Context {Json : Type}.
Variable spread : option Json → Json → Json.

Implicit Types (σ : gmap string (@Obj Json)).
Implicit Types (o escrow property transaction : @Obj Json).
Implicit Types (c : @call Json) (now key : string).

(** ** Symbolic execution of an invocation *)

Ltac tx_ops :=
  unfold RegisterProperty, UpdateProperty, TransferProperty,
    CreateTransaction, CompleteTransaction, CancelTransaction,
    CreateEscrow, AddPayment, AddDocument, MarkConditionMet,
    CompleteEscrow, CancelEscrow in *.

Ltac tx_unfold :=
  unfold mbind, mret, tx_bind, tx_ret, getState, putState, throw,
    JSON_parse, push in *; simpl in *.

(** Follows every branch of the source. *)
Ltac tx_cases :=
  repeat first
    [ progress simplify_eq
    | progress tx_unfold
    | case_match
    | case_decide ].

(** Decided guards, in positive form. *)
Ltac guards :=
  repeat match goal with
  | H : right _ = right _ |- _ => clear H
  | H : left _ = left _ |- _ => clear H
  | H : ¬ (_ ≠ _) |- _ => apply dec_stable in H
  | H : ¬ (_ ≠ _ ∧ _ ≠ _) |- _ =>
      apply not_and_l in H as [H|H]; apply dec_stable in H
  end.

Lemma not_open_for_updates o :
  ¬ open_for_updates o ↔
  status o ≠ Some "created" ∧ status o ≠ Some "in_progress".
Proof. unfold open_for_updates. tauto. Qed.

Lemma fully_paid_ext total o o' :
  price o' = price o → fully_paid total o' = fully_paid total o.
Proof. unfold fully_paid, price_number. by intros ->. Qed.

Lemma run_snoc cs now c σ :
  run spread (cs ++ [(now, c)]) σ = commit spread now c (run spread cs σ).
Proof. unfold run. by rewrite foldl_snoc. Qed.

Lemma reachable_by_run admitted cs : ∀ σ,
  reachable_by spread admitted σ →
  admitted_run spread admitted cs σ →
  reachable_by spread admitted (run spread cs σ).
Proof.
  induction cs as [|[now c] cs IH]; intros σ Hσ Hcs; [done|].
  destruct Hcs as [Hc Hcs]. apply IH; [|done]. by constructor.
Qed.

(** ** JSON round trips are idempotent *)

Lemma JSON_number_idem v : JS.JSON_number (JS.JSON_number v) = JS.JSON_number v.
Proof. by destruct v as [[]|]. Qed.

Lemma JSON_payment_idem (p : @Payment Json) :
  JSON_payment (JSON_payment p) = JSON_payment p.
Proof. unfold JSON_payment; simpl. by rewrite JSON_number_idem. Qed.

Lemma JSON_history_idem (h : @HistoryEntry Json) :
  JSON_history (JSON_history h) = JSON_history h.
Proof.
  unfold JSON_history; simpl. f_equal.
  destruct (hist_price h); simpl; [|done]. by rewrite JSON_number_idem.
Qed.

Lemma JSON_roundtrip_idem o : JSON_roundtrip (JSON_roundtrip o) = JSON_roundtrip o.
Proof.
  destruct o as [? ? ? ? ? ? past ? ? ? ? ? cost ? ? ? ? ? paid ? ? ?].
  unfold JSON_roundtrip; simpl. unfold set_price; simpl. f_equal.
  - destruct past as [past|]; simpl; [|done]. f_equal.
    rewrite <-list_fmap_compose. apply list_fmap_ext.
    intros ???. apply JSON_history_idem.
  - destruct cost; simpl; [|done]. by rewrite JSON_number_idem.
  - destruct paid as [paid|]; simpl; [|done]. f_equal.
    rewrite <-list_fmap_compose. apply list_fmap_ext.
    intros ???. apply JSON_payment_idem.
Qed.

(** ** Failing invocations *)

(** C2: whenever an operation of the escrow contract throws, the world state
    it leaves is the one it started from: every [throw] of [CreateEscrow],
    [AddPayment], [AddDocument], [MarkConditionMet], [CompleteEscrow] and
    [CancelEscrow] precedes the first [putState].  In particular a failing
    [CompleteEscrow] leaves property, transaction and escrow as they were
    and a failing [CancelEscrow] writes nothing. *)
Theorem failed_escrow_call_writes_nothing now c σ σ' e :
  escrow_call c = true →
  invoke spread now c σ = (σ', Throws e) →
  σ' = σ.
Proof.
  destruct c; try discriminate; intros _; simpl; tx_ops; intros Hrun.
  - (* CreateEscrow *) by tx_cases.
  - (* AddPayment *) by tx_cases.
  - (* AddDocument *) by tx_cases.
  - (* MarkConditionMet *) by tx_cases.
  - (* CompleteEscrow: the three writes come last *) by tx_cases.
  - (* CancelEscrow: both writes follow the status test *) by tx_cases.
Qed.

(** C7: on an escrow whose status is [completed] or [cancelled], each of
    [AddPayment], [AddDocument], [MarkConditionMet], [CompleteEscrow] and
    [CancelEscrow] throws the invalid-state error, whatever its other
    arguments, and leaves the ledger (hence the escrow) unchanged; this
    includes a second [CancelEscrow] on a cancelled escrow. *)
Theorem terminal_escrow_rejects_mutations σ key escrow :
  σ !! key = Some escrow →
  terminal escrow →
  (∀ now paymentId amount paymentMethod paymentDetails,
     AddPayment now key paymentId amount paymentMethod paymentDetails σ
     = (σ, Throws InvalidStateError)) ∧
  (∀ now documentId documentType documentHash documentMetadata,
     AddDocument now key documentId documentType documentHash documentMetadata σ
     = (σ, Throws InvalidStateError)) ∧
  (∀ now conditionId verifierId verificationDetails,
     MarkConditionMet now key conditionId verifierId verificationDetails σ
     = (σ, Throws InvalidStateError)) ∧
  (∀ now, CompleteEscrow now key σ = (σ, Throws InvalidStateError)) ∧
  (∀ now reason, CancelEscrow now key reason σ = (σ, Throws InvalidStateError)).
Proof using Type.
  intros Hσ [Hst | Hst]; repeat split; intros; tx_ops; tx_unfold;
    rewrite Hσ, !Hst; case_decide as Hguard; try done;
    exfalso; apply Hguard; auto.
Qed.

(** ** Payments and conditions *)


(** X11: what [MarkConditionMet] does for a condition id that is a key of
    [conditions_met] or is found nowhere, not even on [Object.prototype]:
    on an escrow that is not open it throws the invalid-state error; for
    an id found nowhere it throws the unknown-condition error and writes
    nothing; for a key of [conditions_met] it sets the key to [true],
    appends one verification record, and makes the escrow ready for
    completion exactly when every condition is then met and the payments
    cover the price. *)
Lemma MarkConditionMet_spec σ now key conditionId verifierId verificationDetails escrow :
  σ !! key = Some escrow →
  (¬ open_for_updates escrow →
     MarkConditionMet now key conditionId verifierId verificationDetails σ
     = (σ, Throws InvalidStateError)) ∧
  (∀ met,
     open_for_updates escrow →
     conditions_met escrow = Some met →
     met !! conditionId = None →
     conditionId ∉ JS.Object_prototype →
     MarkConditionMet now key conditionId verifierId verificationDetails σ
     = (σ, Throws UnknownConditionError)) ∧
  (∀ met paid parsedDetails,
     open_for_updates escrow →
     conditions_met escrow = Some met →
     is_Some (met !! conditionId) →
     payments escrow = Some paid →
     verificationDetails = Some parsedDetails →
     ∃ r,
       let verification :=
         {| ver_conditionId := conditionId; ver_verifierId := verifierId;
            ver_details := parsedDetails; ver_timestamp := now |} in
       MarkConditionMet now key conditionId verifierId verificationDetails σ
       = (<[key := r]> σ, Returns r) ∧
       conditions_met r = Some (<[conditionId := true]> met) ∧
       verifications r
       = Some (default [] (verifications escrow) ++ [verification]) ∧
       status r =
         (if JS.every_true (<[conditionId := true]> met)
             && fully_paid (total_paid paid) escrow
          then Some "ready_for_completion" else status escrow)).
Proof.
  intros Hσ. split_and!.
  - intros Hst%not_open_for_updates. tx_ops. tx_unfold. rewrite Hσ.
    by case_decide.
  - intros met Hopen Hmet Hnone Hproto. tx_ops. tx_unfold. rewrite Hσ.
    case_decide as Hd; [apply not_open_for_updates in Hd; done|].
    rewrite Hmet. unfold JS.has_property.
    rewrite bool_decide_eq_false_2 by (rewrite Hnone; by intros [??]).
    by rewrite bool_decide_eq_false_2.
  - intros met paid parsedDetails Hopen Hmet Hsome Hpaid ->.
    tx_ops. tx_unfold. rewrite Hσ.
    case_decide as Hd; [apply not_open_for_updates in Hd; done|].
    rewrite Hmet. unfold JS.has_property.
    rewrite bool_decide_eq_true_2 by done. simpl.
    assert (JS.assign conditionId true met = <[conditionId := true]> met) as ->.
    { unfold JS.assign. case_decide as Hp; [|done].
      destruct Hp as [_ Hp]. rewrite Hp in Hsome. by destruct Hsome. }
    destruct (verifications escrow) as [vs|] eqn:Hver; simpl;
      rewrite ?Hver, Hpaid; simpl; eexists; (split; [reflexivity|]);
      rewrite (fully_paid_ext _ escrow) by done;
      split_and!; by case_match.
Qed.

(** ** Completion, cancellation, registration *)

(** C1 (amended): on an existing escrow, [CompleteEscrow] throws the
    invalid-state error unless the status is [ready_for_completion], and the
    ownership-mismatch error if the property read back is owned by someone
    else than the escrow's seller; it returns whenever the escrow is ready
    for completion, the property is on the ledger with a history and is
    owned by the seller, and the transaction is on the ledger; when it
    returns, the record under the
    escrow's [transactionId] and the escrow have status [completed], and,
    provided the property's key differs from the escrow's key and from its
    [transactionId], the property is owned by the escrow's buyer and its
    history is the old one followed by exactly one entry,
    [transferRecord]. *)
Theorem CompleteEscrow_spec σ now key escrow :
  σ !! key = Some escrow →
  CompleteEscrow_behaviour property_key_apart σ now key escrow.
Proof.
  intros Hσ. split_and!.
  - intros Hst. tx_ops. tx_unfold. rewrite Hσ. by case_decide.
  - intros pk property Hst Hpk Hprop Hown. tx_ops. tx_unfold.
    rewrite Hσ. case_decide; [done|]. rewrite Hpk. simpl. rewrite Hprop.
    destruct (decide (ownerId property ≠ sellerId escrow)); [done|contradiction].
  - intros pk tk property transaction past Hst Hpk Hprop Hown Hpast Htk Ht.
    tx_ops. tx_unfold. rewrite Hσ. case_decide; [done|].
    rewrite Hpk. simpl. rewrite Hprop. case_decide; [done|].
    rewrite Htk. simpl. rewrite Ht, Hpast. simpl. by do 2 eexists.
  - intros σ' r Hrun. tx_ops. tx_unfold. rewrite Hσ in Hrun.
    destruct (propertyId escrow) as [pk|] eqn:Hpk;
      destruct (transactionId escrow) as [tk|] eqn:Htk; tx_cases.
    do 5 eexists. split_and!; try done.
    + destruct (decide (key = tk)) as [->|].
      * by rewrite lookup_insert_eq.
      * rewrite lookup_insert_ne by done. by rewrite lookup_insert_eq.
    + by rewrite lookup_insert_eq.
    + intros [??]. eexists. split; [|split].
      * rewrite lookup_insert_ne by done. rewrite lookup_insert_ne by done.
        by rewrite lookup_insert_eq.
      * done.
      * unfold transferRecord. by rewrite Htk.
Qed.

(** C10 (amended): when the escrow is not terminal and no record is stored
    under its [transactionId], [CancelEscrow] returns without a not-found
    error; the escrow, the only record written, has status [cancelled] and
    carries as cancellation reason the given reason or, when that is the
    empty string, "No reason provided". *)
Theorem CancelEscrow_orphan σ now key reason :
  CancelEscrow_without_transaction
    (λ reason, JS.or reason "No reason provided") σ now key reason.
Proof.
  intros escrow tk Hσ Hterm Htk Hnone. tx_ops. tx_unfold. rewrite Hσ.
  case_decide; [done|]. rewrite Htk. simpl. rewrite Hnone.
  eexists. split; [reflexivity|]. split_and!; try done.
  rewrite lookup_insert_ne; [done|]. intros ->. congruence.
Qed.

(** C3 (amended): [RegisterProperty] never throws an already-exists error;
    whenever [details] is valid JSON it stores, under the given id and over
    whatever record is there, a property with an empty history and status
    [active]. *)
Theorem RegisterProperty_spec σ now propertyId address ownerId details parsed :
  let r := new_property now propertyId address ownerId parsed in
  (∀ σ', RegisterProperty now propertyId address ownerId details σ
         ≠ (σ', Throws AlreadyExistsError)) ∧
  RegisterProperty now propertyId address ownerId (Some parsed) σ
  = (<[propertyId := r]> σ, Returns r) ∧
  history r = Some [] ∧ status r = Some "active".
Proof.
  split; [|done]. intros σ'. tx_ops. tx_unfold. by destruct details.
Qed.

(** ** Owner and history agree *)

Lemma owner_consistent_ext reg key o o' :
  docType o' = docType o → history o' = history o → ownerId o' = ownerId o →
  owner_consistent reg key o → owner_consistent reg key o'.
Proof. unfold owner_consistent. intros -> -> ->. done. Qed.

Lemma current_owner_JSON reg key (past : list (@HistoryEntry Json)) :
  current_owner reg key (JSON_history <$> past) = current_owner reg key past.
Proof.
  unfold current_owner. rewrite fmap_last. by destruct (last past).
Qed.

Lemma owner_consistent_JSON reg key o :
  owner_consistent reg key o → owner_consistent reg key (JSON_roundtrip o).
Proof.
  intros [Hdoc Hown]. split; simpl.
  - intros Hd. destruct (Hdoc Hd) as [past ->]. by eexists.
  - intros past Hpast. destruct (history o) as [past'|]; simplify_eq/=.
    rewrite current_owner_JSON. by apply Hown.
Qed.

Lemma owner_consistent_push reg key o past entry :
  history o = Some past →
  owner_consistent reg key
    (set_ownerId (hist_toOwnerId entry) (set_history (Some (past ++ [entry])) o)).
Proof.
  intros Hpast. split; simpl; [by eexists|].
  intros ? [= <-]. unfold current_owner. by rewrite last_snoc.
Qed.

Lemma owner_consistent_other reg reg' key o :
  reg' !! key = reg !! key →
  owner_consistent reg key o → owner_consistent reg' key o.
Proof. unfold owner_consistent, current_owner. by intros ->. Qed.

Lemma owner_consistent_commit now c σ reg :
  (∀ key o, σ !! key = Some o → owner_consistent reg key o) →
  ∀ key o, commit spread now c σ !! key = Some o →
           owner_consistent (registrant_step reg c) key o.
Proof.
  intros Hinv key o. unfold commit.
  destruct (invoke spread now c σ) as [σ' [r|e]] eqn:Hrun.
  - destruct c; simpl in Hrun; tx_ops; tx_cases; intros Hlook;
      repeat (apply lookup_insert_Some in Hlook as [[<- <-]|[? Hlook]]);
      try (by apply Hinv);
      try apply owner_consistent_JSON.
    all: try (by eapply owner_consistent_ext; [..|by eapply Hinv]).
    all: try (by eapply owner_consistent_ext;
                [..|by eapply owner_consistent_push]).
    all: try (by split; simpl; [intros [=]|intros ? [=]]).
    + split; simpl; [by eexists|]. intros ? [= <-].
      unfold current_owner. simpl. by rewrite lookup_insert_eq.
    + eapply owner_consistent_other; [|by eapply Hinv].
      by rewrite lookup_insert_ne.
  - assert (registrant_step reg c = reg) as ->; [|by apply Hinv].
    destruct c; try done. simpl in *. tx_ops. by tx_cases.
Qed.

Lemma owner_consistent_run cs key o :
  run spread cs ∅ !! key = Some o → owner_consistent (registrants cs) key o.
Proof.
  revert key o. induction cs as [|[now c] cs IH] using rev_ind; intros key o.
  - unfold run; simpl. by rewrite lookup_empty.
  - rewrite run_snoc. unfold registrants. rewrite foldl_snoc.
    by apply owner_consistent_commit.
Qed.

(** C8: in the ledger reached from the empty one by any sequence of
    invocations of the three contracts ([RegisterProperty],
    [UpdateProperty], [TransferProperty], [CompleteEscrow],
    [CompleteTransaction] and all the others), every property record has a
    history, and its [ownerId] is the [toOwnerId] of the last entry of that
    history or, when the history is empty, the [ownerId] given by the last
    registration under its key. *)
Theorem owner_matches_history cs key property :
  run spread cs ∅ !! key = Some property →
  docType property = Some "property" →
  ∃ past,
    history property = Some past ∧
    ownerId property =
      match last past with
      | Some entry => hist_toOwnerId entry
      | None => registrants cs !! key
      end.
Proof.
  intros Hrun Hdoc. destruct (owner_consistent_run _ _ _ Hrun) as [Hh Hown].
  destruct (Hh Hdoc) as [past Hpast]. exists past. split; [done|].
  by apply Hown.
Qed.

(** ** Settled escrows are paid *)

Lemma escrow_invariant_intro o' :
  (docType o' = Some "escrow" →
   status o' ≠ Some "pending" ∧ history o' = None ∧
   (settled o' →
    ∃ paid, payments o' = Some paid ∧ JSON_payment <$> paid = paid ∧
            JS.JSON_number <$> price o' = price o' ∧
            fully_paid (total_paid paid) o' = true)) →
  escrow_invariant (JSON_roundtrip o').
Proof.
  intros H. split; [apply JSON_roundtrip_idem|]. simpl. intros Hdoc.
  destruct (H Hdoc) as (Hst & Hh & Hpaid). split_and!; [done|by rewrite Hh|].
  intros Hs. destruct (Hpaid Hs) as (paid & Hp & Hn & Hpr & Hfull).
  exists paid. split; [simpl; by rewrite Hp; simpl; rewrite Hn|].
  erewrite fully_paid_ext; [done|]. done.
Qed.

Lemma escrow_invariant_payments o paid :
  escrow_invariant o → payments o = Some paid →
  JSON_payment <$> paid = paid ∧ JS.JSON_number <$> price o = price o.
Proof.
  intros [Hjson _] Hp. split.
  - apply (f_equal payments) in Hjson. simpl in Hjson. rewrite Hp in Hjson.
    by simplify_eq/=.
  - apply (f_equal price) in Hjson. done.
Qed.

Lemma not_escrow_pending o :
  escrow_invariant o → status o = Some "pending" → docType o ≠ Some "escrow".
Proof. intros [_ Hesc] Hst Hdoc. by destruct (Hesc Hdoc) as (? & _). Qed.

Lemma not_escrow_history o past :
  escrow_invariant o → history o = Some past → docType o ≠ Some "escrow".
Proof.
  intros [_ Hesc] Hpast Hdoc. destruct (Hesc Hdoc) as (_ & ? & _). congruence.
Qed.

Lemma escrow_invariant_not_escrow o' :
  docType o' ≠ Some "escrow" → escrow_invariant (JSON_roundtrip o').
Proof. intros. by apply escrow_invariant_intro. Qed.

(** An update that keeps payments and price and does not settle. *)
Lemma escrow_invariant_keep o o' :
  escrow_invariant o →
  docType o' = docType o → history o' = history o →
  payments o' = payments o → price o' = price o →
  (status o ≠ Some "pending" → status o' ≠ Some "pending") →
  (settled o' → settled o) →
  escrow_invariant (JSON_roundtrip o').
Proof.
  intros Hinv Hd Hh Hp Hpr Hst Hset. apply escrow_invariant_intro.
  rewrite Hd, Hh. intros Hdoc. pose proof Hinv as [_ Hesc].
  destruct (Hesc Hdoc) as (? & ? & Hcover). split_and!; [by auto..|].
  intros Hs. destruct (Hcover (Hset Hs)) as (paid & Hpaid & Hfull).
  destruct (escrow_invariant_payments _ _ Hinv Hpaid).
  exists paid. rewrite Hp, Hpr. split_and!; try done.
  by rewrite (fully_paid_ext _ o).
Qed.

(** An update that leaves the escrow open. *)
Lemma escrow_invariant_open o o' :
  escrow_invariant o →
  docType o' = docType o → history o' = history o →
  open_for_updates o' →
  escrow_invariant (JSON_roundtrip o').
Proof.
  intros [_ Hesc] Hd Hh Hopen. apply escrow_invariant_intro.
  rewrite Hd, Hh. intros Hdoc. destruct (Hesc Hdoc) as (_ & ? & _).
  unfold settled. destruct Hopen as [Hs|Hs]; rewrite Hs; split_and!; try done.
  all: by intros [|].
Qed.

(** The update of [MarkConditionMet] that found the escrow fully paid. *)
Lemma escrow_invariant_ready o o' paid :
  escrow_invariant o →
  docType o' = docType o → history o' = history o →
  payments o' = payments o → price o' = price o →
  payments o = Some paid → fully_paid (total_paid paid) o' = true →
  status o' = Some "ready_for_completion" →
  escrow_invariant (JSON_roundtrip o').
Proof.
  intros Hinv Hd Hh Hp Hpr Hpaid Hfull Hst. apply escrow_invariant_intro.
  rewrite Hd, Hh. intros Hdoc. pose proof Hinv as [_ Hesc].
  destruct (Hesc Hdoc) as (_ & ? & _). rewrite Hst. split_and!; [done..|].
  intros _. destruct (escrow_invariant_payments _ _ Hinv Hpaid).
  exists paid. rewrite Hp, Hpr. by split_and!.
Qed.

Lemma escrow_invariant_commit now c σ :
  (∀ key o, σ !! key = Some o → escrow_invariant o) →
  transaction_is_no_escrow σ c →
  ∀ key o, commit spread now c σ !! key = Some o → escrow_invariant o.
Proof.
  intros Hinv Hlinked key o. unfold commit.
  destruct (invoke spread now c σ) as [σ' [r|e]] eqn:Hrun; [|by apply Hinv].
  destruct c; simpl in Hrun; tx_ops; tx_cases; intros Hlook;
    repeat (apply lookup_insert_Some in Hlook as [[<- <-]|[? Hlook]]);
    try (by eapply Hinv); guards;
    repeat match goal with
    | H : ?g !! ?k = Some ?x |- _ =>
        lazymatch goal with
        | _ : escrow_invariant x |- _ => fail
        | _ => pose proof (Hinv _ _ H)
        end
    end.
  all: try (apply escrow_invariant_not_escrow; simpl;
            first [ done | by eapply not_escrow_pending
                  | by eapply not_escrow_history ]).
  all: try (match goal with
            | H : escrow_invariant _ |- _ =>
                by eapply (escrow_invariant_keep _ _ H); simpl;
                  [done|done|done|done|done
                  |unfold settled; simpl; try done; by intros [|]]
            end).
  all: try (match goal with
            | H : escrow_invariant _ |- _ =>
                by eapply (escrow_invariant_open _ _ H); simpl;
                  [done|done|unfold open_for_updates; simpl; auto]
            end).
  all: try (match goal with
            | H : escrow_invariant _ |- _ =>
                by eapply (escrow_invariant_keep _ _ H); simpl;
                  [done|done|done|done|done|intros _; by left]
            end).
  all: try (match goal with
            | H : escrow_invariant ?x, Hp : payments ?x = Some ?paid,
              Hif : _ && _ = true |- _ =>
                apply andb_true_iff in Hif as [_ Hif];
                by eapply (escrow_invariant_ready _ _ paid H); simpl
            end).
  - apply escrow_invariant_intro; simpl. intros _. split_and!; [done..|].
    unfold settled; simpl. by intros [|].
  - apply escrow_invariant_not_escrow; simpl.
    match goal with
    | Ht : transactionId _ = Some ?tk, Hl : _ !! ?tk = Some _ |- _ =>
        destruct (Hlinked _ _ _ eq_refl Ht Hl) as [->|]; done
    end.
Qed.

Lemma reachable_escrow_invariant σ :
  reachable_by spread transaction_is_no_escrow σ →
  ∀ key o, σ !! key = Some o → escrow_invariant o.
Proof.
  induction 1 as [|σ now c _ IH Hlinked]; [by intros ??; rewrite lookup_empty|].
  by apply escrow_invariant_commit.
Qed.

(** ** The payment total is a binary64 sum *)

(** One more payment adds one binary64 addition to the total. *)
Lemma total_paid_snoc (paid : list (@Payment Json)) p :
  total_paid (paid ++ [p])
  = JS.add (total_paid paid) (JS.ToNumber (pay_amount p)).
Proof. unfold total_paid. by rewrite foldl_snoc. Qed.

Lemma exact_total_proper (paid : list (@Payment Json)) : ∀ a b,
  (a == b)%Q →
  match exact_total a paid, exact_total b paid with
  | Some x, Some y => (x == y)%Q
  | None, None => True
  | _, _ => False
  end.
Proof.
  induction paid as [|p paid IH]; intros a b Hab; simpl; [done|].
  destruct (JS.to_Q _); [|done]. apply IH. by rewrite Hab.
Qed.

Lemma no_rounding_exact (paid : list (@Payment Json)) : ∀ sum q,
  JS.to_Q sum = Some q →
  no_rounding sum paid = true →
  ∃ computed exact,
    JS.to_Q (foldl (λ sum p, JS.add sum (JS.ToNumber (pay_amount p))) sum paid)
    = Some computed ∧
    exact_total q paid = Some exact ∧
    (computed == exact)%Q.
Proof.
  induction paid as [|p paid IH]; intros sum q Hq Hno; simpl in *.
  - by exists q, q.
  - apply andb_true_iff in Hno as [Hadd Hno]. unfold exact_add in Hadd.
    rewrite Hq in Hadd.
    destruct (JS.to_Q (JS.ToNumber (pay_amount p))) as [a|]; [|done].
    destruct (JS.to_Q (JS.add sum (JS.ToNumber (pay_amount p)))) as [c|] eqn:Hc;
      [|done].
    apply Qeq_bool_iff in Hadd.
    destruct (IH _ _ Hc Hno) as (computed & exact & Hcomp & Hex & Heq).
    pose proof (exact_total_proper paid c (q + a)%Q Hadd) as Hp.
    rewrite Hex in Hp. destruct (exact_total (q + a) paid) as [exact'|]; [|done].
    exists computed, exact'. split_and!; [done|done|]. by rewrite Heq.
Qed.

(** C9 (amended): the payment total is accumulated from 0, left to right,
    in binary64 floating point; it denotes the exact rational sum of the
    payment amounts whenever no addition of the accumulation rounds. *)
Theorem total_paid_exact_without_rounding (paid : list (@Payment Json)) :
  no_rounding JS.zero paid = true → sums_exactly paid.
Proof. intros Hno. by apply (no_rounding_exact paid JS.zero 0%Q). Qed.

(** ** Settled escrows are paid: the numbers *)

(** *** The doubles that the operations compute are canonical

    [SpecFloat] defines the operations and the canonical form
    ([valid_binary]); that rounding ends in the canonical form is shown
    here, for binary64. *)

Local Open Scope Z_scope.

Lemma digits2_pos_upper (m : positive) : Z.pos m < 2 ^ Z.pos (digits2_pos m).
Proof.
  induction m as [m IH|m IH|]; cbn [digits2_pos]; [| |done].
  all: rewrite Pos2Z.inj_succ, Z.pow_succ_r by lia; lia.
Qed.

Lemma digits2_pos_lower (m : positive) : 2 ^ (Z.pos (digits2_pos m) - 1) ≤ Z.pos m.
Proof.
  induction m as [m IH|m IH|]; cbn [digits2_pos]; [| |done].
  all: rewrite Pos2Z.inj_succ;
    replace (Z.succ (Z.pos (digits2_pos m)) - 1)
      with (Z.succ (Z.pos (digits2_pos m) - 1)) by lia;
    rewrite Z.pow_succ_r by lia; lia.
Qed.

Lemma digits2_pos_unique (m : positive) (k : Z) :
  2 ^ (k - 1) ≤ Z.pos m < 2 ^ k → Z.pos (digits2_pos m) = k.
Proof.
  intros [Hlow Hup].
  pose proof (digits2_pos_upper m) as Hu.
  pose proof (digits2_pos_lower m) as Hl.
  assert (0 < k).
  { destruct (Z.lt_trichotomy k 0) as [?|[->|?]]; [|simpl in Hup; lia|done].
    rewrite Z.pow_neg_r in Hup by done. lia. }
  destruct (Z.lt_trichotomy (Z.pos (digits2_pos m)) k) as [Hlt|[?|Hgt]];
    [|done|].
  - assert (2 ^ Z.pos (digits2_pos m) ≤ 2 ^ (k - 1))
      by (apply Z.pow_le_mono_r; lia). lia.
  - assert (2 ^ k ≤ 2 ^ (Z.pos (digits2_pos m) - 1))
      by (apply Z.pow_le_mono_r; lia). lia.
Qed.

Lemma digits2_pos_shl (m d : positive) :
  digits2_pos (Pos.iter xO m d) = (digits2_pos m + d)%positive.
Proof.
  induction d as [|d IH] using Pos.peano_ind.
  - simpl. lia.
  - rewrite Pos.iter_succ. simpl. rewrite IH. lia.
Qed.

Lemma shr_1_m (mrs : shr_record) :
  0 ≤ shr_m mrs → shr_m (shr_1 mrs) = shr_m mrs / 2.
Proof.
  destruct mrs as [[|[m|m|]|m] r s]; cbn [shr_1 shr_m]; intros Hm;
    try done; try lia.
  - apply Z.div_unique with 1; lia.
  - apply Z.div_unique with 0; lia.
Qed.

Lemma iter_shr_m (p : positive) : ∀ mrs,
  0 ≤ shr_m mrs →
  shr_m (SpecFloat.iter_pos shr_1 p mrs) = shr_m mrs / 2 ^ Z.pos p.
Proof.
  assert (∀ q : positive, 0 < 2 ^ Z.pos q) as Hpow
    by (intros; apply Z.pow_pos_nonneg; lia).
  induction p as [p IH|p IH|]; intros mrs Hm; cbn [SpecFloat.iter_pos].
  - assert (0 ≤ shr_m (shr_1 mrs))
      by (rewrite shr_1_m by done; apply Z.div_pos; lia).
    assert (0 ≤ shr_m (SpecFloat.iter_pos shr_1 p (shr_1 mrs)))
      by (rewrite IH by done; apply Z.div_pos; [done|apply Hpow]).
    rewrite !IH, shr_1_m by done.
    pose proof (Hpow p).
    rewrite !Z.div_div by lia. f_equal.
    replace (Z.pos p~1) with (Z.pos p + Z.pos p + 1) by lia.
    rewrite !Z.pow_add_r by lia. lia.
  - assert (0 ≤ shr_m (SpecFloat.iter_pos shr_1 p mrs))
      by (rewrite IH by done; apply Z.div_pos; [done|apply Hpow]).
    rewrite !IH by done.
    pose proof (Hpow p).
    rewrite Z.div_div by lia. f_equal.
    replace (Z.pos p~0) with (Z.pos p + Z.pos p) by lia.
    rewrite !Z.pow_add_r by lia. lia.
  - by apply shr_1_m.
Qed.

Lemma Zdigits2_div (m p : positive) :
  (Z.pos p < Z.pos (digits2_pos m) →
     0 < Z.pos m / 2 ^ Z.pos p ∧
     Zdigits2 (Z.pos m / 2 ^ Z.pos p) = Z.pos (digits2_pos m) - Z.pos p) ∧
  (Z.pos (digits2_pos m) ≤ Z.pos p → Z.pos m / 2 ^ Z.pos p = 0).
Proof.
  pose proof (digits2_pos_upper m) as Hu.
  pose proof (digits2_pos_lower m) as Hl.
  assert (0 < 2 ^ Z.pos p) as Hpow by (apply Z.pow_pos_nonneg; lia).
  split.
  - intros Hp.
    assert (2 ^ (Z.pos (digits2_pos m) - Z.pos p - 1) ≤ Z.pos m / 2 ^ Z.pos p)
      as Hlow.
    { apply Z.div_le_lower_bound; [done|].
      rewrite <-Z.pow_add_r by lia.
      by replace (Z.pos p + (Z.pos (digits2_pos m) - Z.pos p - 1))
        with (Z.pos (digits2_pos m) - 1) by lia. }
    assert (Z.pos m / 2 ^ Z.pos p < 2 ^ (Z.pos (digits2_pos m) - Z.pos p))
      as Hup.
    { apply Z.div_lt_upper_bound; [done|].
      rewrite <-Z.pow_add_r by lia.
      by replace (Z.pos p + (Z.pos (digits2_pos m) - Z.pos p))
        with (Z.pos (digits2_pos m)) by lia. }
    assert (0 < 2 ^ (Z.pos (digits2_pos m) - Z.pos p - 1))
      by (apply Z.pow_pos_nonneg; lia).
    split; [lia|].
    destruct (Z.pos m / 2 ^ Z.pos p) as [|z|z] eqn:Hz; [lia| |lia].
    cbn [Zdigits2]. apply digits2_pos_unique. split; [|done].
    by replace (Z.pos (digits2_pos m) - Z.pos p - 1)
      with (Z.pos (digits2_pos m) - Z.pos p - 1) in Hlow by lia.
  - intros Hp. apply Z.div_small. split; [lia|].
    eapply Z.lt_le_trans; [exact Hu|]. apply Z.pow_le_mono_r; lia.
Qed.

Lemma round_nearest_even_cases (m : Z) (l : location) :
  round_nearest_even m l = m ∨ round_nearest_even m l = m + 1.
Proof. destruct l as [|[]]; simpl; auto. destruct (Z.even m); auto. Qed.

(** Digits of a successor. *)
Lemma Zdigits2_succ (m : positive) :
  Zdigits2 (Z.pos m + 1) = Z.pos (digits2_pos m) ∨
  (Zdigits2 (Z.pos m + 1) = Z.pos (digits2_pos m) + 1 ∧
   Z.pos m + 1 = 2 ^ Z.pos (digits2_pos m)).
Proof.
  pose proof (digits2_pos_upper m) as Hu.
  pose proof (digits2_pos_lower m) as Hl.
  destruct (Z.pos m + 1) as [|z|z] eqn:Hz; [lia| |lia]. cbn [Zdigits2].
  destruct (decide (Z.pos z = 2 ^ Z.pos (digits2_pos m))) as [Heq|Hne].
  - right. split; [|done]. apply digits2_pos_unique.
    replace (Z.pos (digits2_pos m) + 1 - 1) with (Z.pos (digits2_pos m)) by lia.
    rewrite Z.pow_add_r by lia. lia.
  - left. apply digits2_pos_unique. lia.
Qed.

Lemma fexp_eq (x : Z) : fexp JS.prec JS.emax x = Z.max (x - 53) (-1074).
Proof. reflexivity. Qed.

(** The last step of [binary_round_aux]: the rounded mantissa is shifted
    once more when rounding carried into a new digit. *)
Lemma binary_round_aux_last (s : bool) (m1 e' : Z) :
  (m1 = 0 ∧ -1074 ≤ e') ∨
  (0 < m1 ∧ fexp JS.prec JS.emax (Zdigits2 m1 + e') = e') ∨
  (0 < m1 ∧ m1 = 2 ^ (Zdigits2 m1 - 1) ∧ 2 ≤ Zdigits2 m1
   ∧ fexp JS.prec JS.emax (Zdigits2 m1 + e') = e' + 1) →
  valid_binary JS.prec JS.emax
    (let '(mrs'', e'') :=
       shr {| shr_m := m1; shr_r := false; shr_s := false |} e'
         (fexp JS.prec JS.emax (Zdigits2 m1 + e') - e') in
     match shr_m mrs'' with
     | 0 => S754_zero s
     | Z.pos m =>
         if e'' <=? JS.emax - JS.prec then S754_finite s m e'' else S754_infinity s
     | Z.neg _ => S754_nan
     end) = true.
Proof.
  intros [[-> He]|[[Hm Hcan]|(Hm & Hpow & Hd & Hcan)]].
  - cbn [Zdigits2]. rewrite fexp_eq in *.
    destruct (Z.max (0 + e' - 53) (-1074) - e') as [|p|p] eqn:Hn;
      [done|lia|done].
  - rewrite Hcan, Z.sub_diag. cbn [shr shr_m].
    destruct m1 as [|m|m]; [lia| |lia].
    destruct (e' <=? JS.emax - JS.prec) eqn:Hle; [|done].
    cbn [valid_binary]. unfold bounded, canonical_mantissa.
    cbn [Zdigits2] in Hcan. rewrite Hcan, Z.eqb_refl. done.
  - rewrite Hcan. replace (e' + 1 - e') with 1 by lia.
    cbn [shr SpecFloat.iter_pos].
    destruct m1 as [|m|m]; [lia| |lia]. cbn [Zdigits2] in *.
    pose proof (shr_1_m {| shr_m := Z.pos m; shr_r := false; shr_s := false |})
      as H1. cbn [shr_m] in H1. rewrite H1 by lia. clear H1.
    destruct (Zdigits2_div m 1) as [Hdiv _].
    destruct Hdiv as [Hpos Hdig]; [lia|].
    replace (2 ^ 1) with 2 in * by done.
    destruct (Z.pos m / 2) as [|m2|m2] eqn:Hm2; [lia| |lia].
    destruct (e' + 1 <=? JS.emax - JS.prec) eqn:Hle; [|done].
    cbn [valid_binary]. unfold bounded, canonical_mantissa.
    cbn [Zdigits2] in Hdig. rewrite Hdig.
    replace (Z.pos (digits2_pos m) - 1 + (e' + 1))
      with (Z.pos (digits2_pos m) + e') by lia.
    rewrite Hcan, Z.eqb_refl. done.
Qed.

Lemma binary_round_aux_valid (s : bool) (mz : positive) (ez : Z) :
  ez ≤ fexp JS.prec JS.emax (Z.pos (digits2_pos mz) + ez) →
  valid_binary JS.prec JS.emax
    (binary_round_aux JS.prec JS.emax s (Z.pos mz) ez loc_Exact) = true.
Proof.
  intros Hfexp. unfold binary_round_aux, shr_fexp.
  cbn [Zdigits2 shr_record_of_loc].
  destruct (fexp JS.prec JS.emax (Z.pos (digits2_pos mz) + ez) - ez) as [|p|p] eqn:Hn;
    [| |lia].
  - cbn [shr loc_of_shr_record shr_m round_nearest_even].
    apply binary_round_aux_last. right. left. split; [lia|].
    cbn [Zdigits2]. lia.
  - cbn [shr].
    set (mrs := SpecFloat.iter_pos shr_1 p
                  {| shr_m := Z.pos mz; shr_r := false; shr_s := false |}).
    assert (shr_m mrs = Z.pos mz / 2 ^ Z.pos p) as Hm'
      by (apply (iter_shr_m p); simpl; lia).
    apply binary_round_aux_last.
    rewrite fexp_eq in *.
    destruct (Zdigits2_div mz p) as [Hlt Hge].
    destruct (Z_lt_le_dec (Z.pos p) (Z.pos (digits2_pos mz))) as [Hp|Hp].
    + destruct (Hlt Hp) as [Hpos Hdig]. rewrite <-Hm' in Hpos, Hdig.
      destruct (round_nearest_even_cases (shr_m mrs) (loc_of_shr_record mrs))
        as [->| ->].
      * right. left. split; [done|]. rewrite ?fexp_eq, Hdig. lia.
      * destruct (shr_m mrs) as [|m'|m'] eqn:Hm1; [lia| |lia].
        destruct (Zdigits2_succ m') as [Hs|[Hs Hpow]].
        -- right. left. split; [lia|]. rewrite ?fexp_eq, Hs.
           cbn [Zdigits2] in Hdig. lia.
        -- cbn [Zdigits2] in Hdig.
           destruct (Z.eq_dec
                       (Z.max (Zdigits2 (Z.pos m' + 1) + (ez + Z.pos p) - 53)
                          (-1074))
                       (ez + Z.pos p)) as [Heq|Hne].
           ++ right. left. split; [lia|]. by rewrite ?fexp_eq.
           ++ right. right. split; [lia|]. rewrite ?fexp_eq, Hs.
              split_and!; [|lia|lia].
              rewrite Hpow. f_equal. lia.
    + rewrite (Hge Hp) in Hm'.
      destruct (round_nearest_even_cases (shr_m mrs) (loc_of_shr_record mrs))
        as [->| ->]; rewrite Hm'.
      * left. split; [done|]. lia.
      * right. left. split; [done|]. rewrite ?fexp_eq. simpl. lia.
Qed.

Lemma binary_round_valid (s : bool) (mx : positive) (ex : Z) :
  valid_binary JS.prec JS.emax (binary_round JS.prec JS.emax s mx ex) = true.
Proof.
  unfold binary_round, shl_align.
  destruct (fexp JS.prec JS.emax (Z.pos (digits2_pos mx) + ex) - ex) as [|d|d] eqn:Hd.
  - apply binary_round_aux_valid. lia.
  - apply binary_round_aux_valid. lia.
  - apply binary_round_aux_valid. rewrite digits2_pos_shl, Pos2Z.inj_add.
    replace (Z.pos (digits2_pos mx) + Z.pos d
             + fexp JS.prec JS.emax (Z.pos (digits2_pos mx) + ex))
      with (Z.pos (digits2_pos mx) + ex) by lia.
    lia.
Qed.

Lemma binary_normalize_valid (m e : Z) (szero : bool) :
  valid_binary JS.prec JS.emax (binary_normalize JS.prec JS.emax m e szero) = true.
Proof. destruct m; [done|apply binary_round_valid..]. Qed.

Lemma SFadd_valid (x y : spec_float) :
  valid_binary JS.prec JS.emax x = true → valid_binary JS.prec JS.emax y = true →
  valid_binary JS.prec JS.emax (SFadd JS.prec JS.emax x y) = true.
Proof.
  destruct x as [sx|sx| |sx mx ex], y as [sy|sy| |sy my ey];
    intros Hx Hy; try done; try (by destruct sx, sy).
  apply binary_normalize_valid.
Qed.

Lemma SFsub_valid (x y : spec_float) :
  valid_binary JS.prec JS.emax x = true → valid_binary JS.prec JS.emax y = true →
  valid_binary JS.prec JS.emax (SFsub JS.prec JS.emax x y) = true.
Proof.
  destruct x as [sx|sx| |sx mx ex], y as [sy|sy| |sy my ey];
    intros Hx Hy; try done; try (by destruct sx, sy).
  apply binary_normalize_valid.
Qed.

Local Close Scope Z_scope.

(** *** Doubles below the tolerance *)

Lemma to_Q_abs (x : JS.number) : JS.to_Q (JS.abs x) = Qabs <$> JS.to_Q x.
Proof.
  destruct x as [s|s| |s m e]; try done.
  destruct s, e as [|p|p]; try reflexivity; simpl; unfold Qabs, inject_Z;
    do 2 f_equal; change (Z.pow_pos 2 p) with (2 ^ Z.pos p)%Z;
    pose proof (Z.pow_pos_nonneg 2 (Z.pos p)); lia.
Qed.

(** The comparison with the tolerance, on a canonical double, bounds the
    rational it denotes: the greatest double below the double 0.01 is
    smaller than one hundredth. *)
Lemma below_tolerance (d : JS.number) :
  valid_binary JS.prec JS.emax d = true →
  JS.lt (JS.abs d) tolerance = true →
  ∃ q, JS.to_Q (JS.abs d) = Some q ∧ (q < 1 # 100)%Q.
Proof.
  assert (tolerance = S754_finite false 5764607523034235 (-59)) as ->
    by (vm_compute; reflexivity).
  destruct d as [s|s| |s m e]; simpl; try done.
  - intros _ _. by exists 0%Q.
  - unfold JS.lt, SFltb, SFcompare, bounded, canonical_mantissa, fexp, emin.
    intros [Hcan _]%andb_true_iff Hlt. apply Z.eqb_eq in Hcan.
    pose proof (digits2_pos_upper m) as Hm.
    assert (Z.pos (digits2_pos m) ≤ 53)%Z as Hd by (unfold JS.prec in *; lia).
    assert (Z.pos m < 2 ^ 53)%Z as Hm53.
    { eapply Z.lt_le_trans; [exact Hm|]. by apply Z.pow_le_mono_r. }
    destruct (Z.compare_spec e (-59)) as [->|He|He]; [| |done].
    + destruct (Pos.compare_cont Eq m 5764607523034235) eqn:Hc; try done.
      assert (Z.pos m < 5764607523034235)%Z as Hlow
        by (apply Pos2Z.pos_lt_pos; by apply Pos.compare_lt_iff).
      eexists. split; [reflexivity|].
      unfold Qlt. simpl.
      assert (Z.pos (2 ^ 59) = 576460752303423488)%Z as ->
        by (vm_compute; reflexivity).
      lia.
    + destruct e as [|p|p]; [lia|lia|]. eexists. split; [reflexivity|].
      unfold Qlt. simpl. rewrite Pos2Z.inj_pow.
      assert (2 ^ 60 ≤ 2 ^ Z.pos p)%Z by (apply Z.pow_le_mono_r; lia).
      lia.
Qed.

(** *** Numeric fields *)

Lemma finite_double_valid (x : JS.number) :
  finite_double x = true → valid_binary JS.prec JS.emax x = true.
Proof. by destruct x. Qed.

Lemma finite_field_number_Q v : finite_field v → is_Some (number_Q v).
Proof. destruct v as [[]|]; simpl; try done. Qed.

Lemma finite_field_JSON v : finite_field v → finite_field (JS.JSON_number v).
Proof. destruct v as [[]|]; simpl; try done. Qed.

Lemma finite_field_valid v :
  finite_field v → valid_binary JS.prec JS.emax (JS.ToNumber v) = true.
Proof. destruct v as [x|]; simpl; [apply finite_double_valid|done]. Qed.

(** The total of finite doubles is a canonical double. *)
Lemma total_paid_valid (paid : list (@Payment Json)) :
  Forall (λ p, finite_field (pay_amount p)) paid →
  valid_binary JS.prec JS.emax (total_paid paid) = true.
Proof.
  unfold total_paid. generalize JS.zero (eq_refl : valid_binary JS.prec JS.emax JS.zero = true).
  induction paid as [|p paid IH]; intros sum Hsum Hall; simpl; [done|].
  apply Forall_cons in Hall as [Hp Hall]. apply IH; [|done].
  apply SFadd_valid; [done|by apply finite_field_valid].
Qed.

Lemma numeric_fields_roundtrip o :
  numeric_fields o → numeric_fields (JSON_roundtrip o).
Proof.
  intros Hnum Hdoc. destruct (Hnum Hdoc) as [(v & Hprice & Hv) Hpaid]. split.
  - simpl. rewrite Hprice. simpl. eexists. split; [done|].
    by apply finite_field_JSON.
  - simpl. intros paid' Hp. destruct (payments o) as [paid|]; [|done].
    simpl in Hp. injection Hp as <-. apply Forall_fmap.
    eapply Forall_impl; [by apply Hpaid|]. intros p. simpl.
    apply finite_field_JSON.
Qed.

Lemma numeric_fields_ext o o' :
  numeric_fields o →
  docType o' = docType o → price o' = price o → payments o' = payments o →
  numeric_fields o'.
Proof. unfold numeric_fields. by intros H -> -> ->. Qed.

Lemma numeric_fields_pay o o' paid v
    (payment : @Payment Json) :
  numeric_fields o →
  payments o = Some paid →
  finite_field v → pay_amount payment = v →
  docType o' = docType o → price o' = price o →
  payments o' = Some (paid ++ [payment]) →
  numeric_fields o'.
Proof.
  intros Hnum Hpaid Hv Hamount Hd Hp Hpay Hdoc. rewrite Hd in Hdoc.
  destruct (Hnum Hdoc) as [Hprice Hall]. rewrite Hp. split; [done|].
  intros paid' Hpaid'. rewrite Hpay in Hpaid'. injection Hpaid' as <-.
  apply Forall_app. split; [by apply Hall|].
  constructor; [by rewrite Hamount|constructor].
Qed.

Lemma numeric_fields_not_escrow o :
  docType o ≠ Some "escrow" → numeric_fields o.
Proof. by intros ??. Qed.

Lemma numeric_fields_commit now c σ :
  (∀ key o, σ !! key = Some o → numeric_fields o) →
  finite_numbers c →
  ∀ key o, commit spread now c σ !! key = Some o → numeric_fields o.
Proof.
  intros Hinv Hfin key o. unfold commit.
  destruct (invoke spread now c σ) as [σ' [r|e]] eqn:Hrun; [|by apply Hinv].
  destruct c; simpl in Hrun, Hfin; tx_ops; tx_cases; intros Hlook;
    repeat (apply lookup_insert_Some in Hlook as [[<- <-]|[? Hlook]]);
    try (by eapply Hinv);
    apply numeric_fields_roundtrip;
    repeat match goal with
    | H : ?g !! ?k = Some ?x |- _ =>
        lazymatch goal with
        | _ : numeric_fields x |- _ => fail
        | _ => pose proof (Hinv _ _ H)
        end
    end.
  all: try (by apply numeric_fields_not_escrow).
  all: try (match goal with
            | H : numeric_fields ?x |- _ =>
                by apply (numeric_fields_ext x)
            end).
  all: try (match goal with
            | H : numeric_fields ?x, Hp : payments ?x = Some ?l
              |- context [?l ++ [?payment]] =>
                by apply (numeric_fields_pay x _ l (JS.Num amount) payment)
            end).
  intros _. simpl. split; [by eexists|]. intros ? [= <-]. constructor.
Qed.

Lemma reachable_by_weaken (admitted admitted' : gmap string Obj → call → Prop) σ :
  (∀ σ c, admitted σ c → admitted' σ c) →
  reachable_by spread admitted σ → reachable_by spread admitted' σ.
Proof. intros Hsub. induction 1; constructor; auto. Qed.

Lemma reachable_numeric_fields σ :
  reachable_by spread sound_sale σ →
  ∀ key o, σ !! key = Some o → numeric_fields o.
Proof.
  induction 1 as [|σ now c _ IH [_ Hfin]];
    [by intros ??; rewrite lookup_empty|].
  by apply numeric_fields_commit.
Qed.

(** A test that passes and is computed without rounding bounds the exact
    difference. *)
Lemma exact_test_bounds (paid : list (@Payment Json)) (cost : JS.number) :
  Forall (λ p, finite_field (pay_amount p)) paid →
  finite_double cost = true →
  JS.lt (JS.abs (JS.sub (total_paid paid) cost)) tolerance = true →
  no_rounding JS.zero paid = true →
  exact_sub (total_paid paid) cost = true →
  ∃ total b,
    exact_total 0%Q paid = Some total ∧ JS.to_Q cost = Some b ∧
    (Qabs (total - b) < 1 # 100)%Q.
Proof.
  intros Hall Hcost Htest Hno Hsub.
  assert (valid_binary JS.prec JS.emax (JS.sub (total_paid paid) cost) = true)
    as Hvalid.
  { apply SFsub_valid; [by apply total_paid_valid|by apply finite_double_valid]. }
  destruct (no_rounding_exact paid JS.zero 0%Q eq_refl Hno)
    as (computed & exact & Hcomputed & Hexact & Heq).
  fold (total_paid paid) in Hcomputed. unfold exact_sub in Hsub.
  rewrite Hcomputed in Hsub.
  destruct (JS.to_Q cost) as [b|]; [|done].
  destruct (JS.to_Q (JS.sub (total_paid paid) cost)) as [d|] eqn:Hd; [|done].
  apply Qeq_bool_iff in Hsub.
  destruct (below_tolerance _ Hvalid Htest) as (q & Hq & Hlt).
  rewrite to_Q_abs, Hd in Hq. injection Hq as <-.
  exists exact, b. split_and!; [done|done|].
  by rewrite <-Heq, <-Hsub.
Qed.


(** ** Further properties: the ledger as a whole *)

(** X1: whenever a method of the property contract or of the transaction
    contract throws, the world state it leaves is the one it started from:
    in [RegisterProperty], [UpdateProperty], [TransferProperty],
    [CreateTransaction], [CompleteTransaction] and [CancelTransaction]
    every [throw] precedes the first [putState]. *)
Theorem failed_registry_call_writes_nothing now c σ σ' e :
  escrow_call c = false →
  invoke spread now c σ = (σ', Throws e) →
  σ' = σ.
Proof.
  destruct c; try discriminate; intros _; simpl; tx_ops; intros Hrun;
    by tx_cases.
Qed.

(** X2: an invocation changes no key outside its footprint: its first
    argument and, for [CompleteTransaction], [CompleteEscrow] and
    [CancelEscrow], the keys that the record stored under it names as its
    property and its transaction. *)
Theorem call_writes_its_footprint now c σ j :
  j ∉ footprint σ c →
  commit spread now c σ !! j = σ !! j.
Proof.
  intros Hj. unfold commit.
  destruct (invoke spread now c σ) as [σ' [r|e]] eqn:Hrun; [|done].
  destruct c; simpl in *; unfold linked_key in *; tx_ops; tx_cases;
    repeat (rewrite lookup_insert_ne; [|set_solver]); done.
Qed.

(** No method calls [deleteState]: a committed invocation keeps every key. *)
Lemma no_call_deletes now c σ j :
  is_Some (σ !! j) → is_Some (commit spread now c σ !! j).
Proof.
  intros Hj. unfold commit.
  destruct (invoke spread now c σ) as [σ' [r|e]] eqn:Hrun; [|done].
  destruct c; simpl in *; tx_ops; tx_cases;
    repeat (rewrite lookup_insert_is_Some'; right); done.
Qed.

(** X3: no sequence of invocations of the twelve state-changing methods
    removes a key from the world state: a record may be overwritten, never
    deleted. *)
Theorem run_never_deletes cs σ j :
  is_Some (σ !! j) → is_Some (run spread cs σ !! j).
Proof.
  revert σ. induction cs as [|[now c] cs IH]; intros σ Hj; [done|].
  apply IH. by apply no_call_deletes.
Qed.

(** X4: what a state-changing method returns is what it stored under its
    first argument: after an invocation that returns [r], each of
    [GetProperty], [GetTransaction] and [GetEscrow], asked for that key,
    returns [r] and leaves the world state as it is. *)
Theorem getters_read_back now c σ σ' r :
  invoke spread now c σ = (σ', Returns r) →
  GetProperty (call_key c) σ' = (σ', Returns r) ∧
  GetTransaction (call_key c) σ' = (σ', Returns r) ∧
  GetEscrow (call_key c) σ' = (σ', Returns r).
Proof.
  intros Hrun.
  assert (σ' !! call_key c = Some r) as Hlook.
  { destruct c; simpl in *; tx_ops; tx_cases; by rewrite lookup_insert_eq. }
  unfold GetProperty, GetTransaction, GetEscrow. tx_unfold.
  by rewrite Hlook.
Qed.

(** X5: the three read methods never write and never look at [docType]:
    for a key that is absent each throws the not-found error, for a key
    that is present each returns the record stored there, whichever
    contract wrote it. *)
Theorem getters_only_read σ key :
  (σ !! key = None →
     GetProperty key σ = (σ, Throws NotFoundError) ∧
     GetTransaction key σ = (σ, Throws NotFoundError) ∧
     GetEscrow key σ = (σ, Throws NotFoundError)) ∧
  (∀ o, σ !! key = Some o →
     GetProperty key σ = (σ, Returns o) ∧
     GetTransaction key σ = (σ, Returns o) ∧
     GetEscrow key σ = (σ, Returns o)).
Proof.
  unfold GetProperty, GetTransaction, GetEscrow. tx_unfold.
  split; [intros ->|intros o ->]; done.
Qed.

Lemma grows_refl {A} (f : A → A) (l : option (list A)) :
  grows f l ((λ x : list A, f <$> x) <$> l).
Proof. destruct l as [l|]; simpl; [|done]. exists []. by rewrite app_nil_r. Qed.

Lemma grows_id {A} (l : option (list A)) : grows id l l.
Proof.
  destruct l as [l|]; simpl; [|done]. exists [].
  by rewrite app_nil_r, list_fmap_id.
Qed.

(** X6: a record that is on the ledger and is not overwritten by a
    create method addressed to its own key is, after any invocation, either
    untouched or a record with the same identity fields (docType, the four
    ids, seller, buyer, price, createdAt) whose [payments], [documents] and
    [history] are the old arrays followed by new elements: no method
    removes or reorders a payment, a document or a history entry, or
    rewrites the terms of a sale. *)
Theorem records_keep_terms_and_grow now c σ key o :
  σ !! key = Some o →
  ¬ (creates c = true ∧ call_key c = key) →
  ∃ o',
    commit spread now c σ !! key = Some o' ∧
    (o' = o ∨
     (same_terms o o' ∧
      grows JSON_payment (payments o) (payments o') ∧
      grows id (documents o) (documents o') ∧
      grows JSON_history (history o) (history o'))).
Proof.
  intros Hσ Hfresh. unfold commit.
  destruct (invoke spread now c σ) as [σ' [r|e]] eqn:Hrun; [|by eauto].
  destruct c; simpl in *; tx_ops; tx_cases;
    repeat match goal with
    | |- context [<[?k := _]> _ !! key] =>
        destruct (decide (k = key)) as [->|];
        [rewrite lookup_insert_eq|rewrite lookup_insert_ne by done]
    end;
    try (by destruct Hfresh);
    try (by eauto);
    eexists; (split; [reflexivity|]); right; simplify_eq;
    (split; [by repeat split|]); simpl.
  all: try (by split_and!; auto using grows_refl, grows_id).
  all: repeat match goal with
       | H : _ = Some _ |- _ => rewrite H
       end;
    split_and!;
    first [ by apply grows_refl | by apply grows_id
          | by (simpl; eexists [_])
          | by (simpl; eexists [_]; rewrite list_fmap_id) ].
Qed.

(** X7: the five updating methods of the escrow contract only move the
    status of the escrow they are addressed to forward: it stays as it is,
    or goes from created to in_progress, from created or in_progress to
    ready_for_completion, from ready_for_completion to completed, or from
    a status that is not terminal to cancelled. *)
Theorem escrow_status_only_advances now c σ σ' r escrow :
  updates_escrow c = true →
  σ !! call_key c = Some escrow →
  invoke spread now c σ = (σ', Returns r) →
  σ' !! call_key c = Some r ∧
  escrow_progress (status escrow) (status r).
Proof.
  intros Hc Hσ Hrun. unfold escrow_progress.
  destruct c; try discriminate; simpl in *; tx_ops; tx_unfold;
    rewrite Hσ in Hrun; tx_cases; guards;
    (split; [by rewrite lookup_insert_eq|]); simpl; try tauto.
Qed.

(** X8: [MarkConditionMet] is the only method that makes a record
    ready for completion: if a record has status ready_for_completion
    after an invocation, then either the record under that key had this
    status before, or the invocation is a [MarkConditionMet] addressed to
    that key and every value of the stored [conditions_met] is [true].  In
    particular [AddPayment] never makes an escrow ready, even when its
    payment completes the price. *)
Theorem only_MarkConditionMet_readies now c σ j o' :
  commit spread now c σ !! j = Some o' →
  status o' = Some "ready_for_completion" →
  (∃ o, σ !! j = Some o ∧ status o = Some "ready_for_completion") ∨
  (∃ conditionId verifierId verificationDetails met,
     c = CallMarkConditionMet j conditionId verifierId verificationDetails ∧
     conditions_met o' = Some met ∧ JS.every_true met = true).
Proof.
  intros Hj Hst. unfold commit in Hj.
  destruct (invoke spread now c σ) as [σ' [r|e]] eqn:Hrun; [|by eauto].
  destruct c; simpl in *; tx_ops; tx_cases;
    repeat match goal with
    | H : <[?k := _]> _ !! j = Some _ |- _ =>
        destruct (decide (k = j)) as [->|];
        [rewrite lookup_insert_eq in H|rewrite lookup_insert_ne in H by done]
    end; simplify_eq; simpl in *; try done; try (by left; eauto).
  all: try (right; do 4 eexists; split; [reflexivity|]; simpl;
            split; [reflexivity|]).
  all: try match goal with
       | H : _ && _ = true |- _ => apply andb_prop in H as [H _]; exact H
       end.
  all: try (guards; congruence).
Qed.

(** ** Further properties: EscrowContract *)

(** The loop of [CreateEscrow] over the parsed conditions throws exactly
    when an element is [null]. *)
Lemma for_of_conditions_null (items : list (option (@Condition Json))) :
  ∀ met, for_of_conditions items met = None ↔ None ∈ items.
Proof.
  induction items as [|[condition|] items IH]; intros met; simpl.
  - split; [done|]. by intros ?%elem_of_nil.
  - rewrite IH. split; [by right|]. by intros [|]%elem_of_cons.
  - split; [by left|done].
Qed.

Lemma declared_nil k : ¬ declared (Json:=Json) [] k.
Proof. by intros [?%elem_of_nil _]. Qed.

Lemma declared_cons (condition : @Condition Json) items k :
  declared (Some condition :: items) k
  ↔ (k = cond_id condition ∧ k ≠ "__proto__") ∨ declared items k.
Proof.
  unfold declared. rewrite fmap_cons, elem_of_cons. simpl. split.
  - intros [[[= ->]|Hin] Hk]; auto.
  - intros [[-> Hk]|[Hin Hk]]; auto.
Qed.

(** The [conditions_met] object the loop builds: the key [k] is present,
    with value [false], exactly when [k] is the id of an element and is not
    "__proto__"; the other keys are as they were. *)
Lemma for_of_conditions_lookup (items : list (option (@Condition Json))) :
  ∀ met met',
    met !! "__proto__" = None →
    for_of_conditions items met = Some met' →
    met' !! "__proto__" = None ∧
    ∀ k, met' !! k
         = if decide (declared items k) then Some false else met !! k.
Proof.
  induction items as [|[condition|] items IH]; intros met met' Hproto Hloop;
    cbn [for_of_conditions] in Hloop; [| |done].
  - injection Hloop as <-. split; [done|]. intros k.
    rewrite decide_False; [done|apply declared_nil].
  - assert (JS.assign (cond_id condition) false met !! "__proto__" = None)
      as Hproto'.
    { unfold JS.assign. case_decide as Hd; [done|].
      rewrite lookup_insert_ne; [done|]. intros Heq. apply Hd. by rewrite Heq. }
    destruct (IH _ _ Hproto' Hloop) as [Hnone Hlook]. split; [done|].
    intros k. rewrite Hlook. clear Hlook Hloop IH Hproto'.
    pose proof (declared_cons condition items k) as Hcons.
    destruct (decide (declared items k)) as [Hd|Hd].
    { rewrite decide_True; [done|]. apply Hcons. by right. }
    destruct (decide (k = cond_id condition)) as [->|Hne].
    + destruct (decide (cond_id condition = "__proto__")) as [Heq|Hid].
      * rewrite decide_False by (rewrite Hcons; intros [[_ ?]|?]; done).
        unfold JS.assign. rewrite decide_True; [done|].
        split; [done|]. by rewrite Heq.
      * rewrite decide_True by (apply Hcons; by left).
        unfold JS.assign.
        rewrite decide_False by (intros [? _]; done).
        by rewrite lookup_insert_eq.
    + rewrite decide_False by (rewrite Hcons; intros [[? _]|?]; done).
      unfold JS.assign. case_decide; [done|]. by rewrite lookup_insert_ne.
Qed.

(** X9: [CreateEscrow] throws the not-found error when the transaction
    key or the property key is absent, the ownership-mismatch error when
    the property read is not owned by the seller, a syntax error when
    [conditions] is not valid JSON, and a type error when it parses to a
    value that cannot be iterated or to an array with a [null] element;
    each time it writes nothing.  Otherwise it returns and stores the new
    escrow under [escrowId], replacing whatever record was there: status
    created, no payments, no documents, and [conditions_met] holding
    [false] for exactly the ids of the elements. *)
Theorem CreateEscrow_spec σ now escrowId transactionId propertyId sellerId buyerId
    price conditions :
  (σ !! transactionId = None →
     CreateEscrow now escrowId transactionId propertyId sellerId buyerId
       price conditions σ = (σ, Throws NotFoundError)) ∧
  (σ !! propertyId = None →
     CreateEscrow now escrowId transactionId propertyId sellerId buyerId
       price conditions σ = (σ, Throws NotFoundError)) ∧
  (∀ property,
     is_Some (σ !! transactionId) →
     σ !! propertyId = Some property →
     (ownerId property ≠ Some sellerId →
        CreateEscrow now escrowId transactionId propertyId sellerId buyerId
          price conditions σ = (σ, Throws OwnershipMismatchError)) ∧
     (ownerId property = Some sellerId →
        match conditions with
        | None =>
            CreateEscrow now escrowId transactionId propertyId sellerId buyerId
              price conditions σ = (σ, Throws SyntaxError)
        | Some NotIterable =>
            CreateEscrow now escrowId transactionId propertyId sellerId buyerId
              price conditions σ = (σ, Throws TypeError)
        | Some (Elements items) =>
            (None ∈ items →
               CreateEscrow now escrowId transactionId propertyId sellerId
                 buyerId price conditions σ = (σ, Throws TypeError)) ∧
            (None ∉ items →
               ∃ met,
                 let r :=
                   JSON_roundtrip
                     (new_escrow now escrowId transactionId propertyId
                        sellerId buyerId price (Elements items) met) in
                 CreateEscrow now escrowId transactionId propertyId sellerId
                   buyerId price conditions σ
                 = (<[escrowId := r]> σ, Returns r) ∧
                 status r = Some "created" ∧
                 payments r = Some [] ∧ documents r = Some [] ∧
                 conditions_met r = Some met ∧
                 ∀ k, met !! k
                      = if decide (declared items k) then Some false
                        else None)
        end)).
Proof.
  split_and!.
  - intros Ht. tx_ops. tx_unfold. by rewrite Ht.
  - intros Hp. tx_ops. tx_unfold. destruct (σ !! transactionId); [|done].
    by rewrite Hp.
  - intros property [t Ht] Hp. split.
    + intros Hown. tx_ops. tx_unfold. rewrite Ht, Hp. by case_decide.
    + intros Hown. tx_ops. tx_unfold. rewrite Ht, Hp.
      case_decide; [done|].
      destruct conditions as [[|items]|]; [done| |done]. simpl. split.
      * intros Hnull.
        by rewrite (proj2 (for_of_conditions_null items ∅) Hnull).
      * intros Hnull.
        destruct (for_of_conditions items ∅) as [met|] eqn:Hloop.
        2: { by apply (for_of_conditions_null items ∅) in Hloop. }
        exists met. split_and!; try done.
        intros k.
        destruct (for_of_conditions_lookup items ∅ met (lookup_empty _) Hloop)
          as [_ Hlook].
        by rewrite Hlook, lookup_empty.
Qed.

(** X10: what [AddDocument] does on an existing escrow, in every case: it
    throws the invalid-state error unless the status is created or
    in_progress, a syntax error when the metadata are not valid JSON, and a
    type error when the stored record has no documents array, each time
    writing nothing; otherwise it returns, the escrow stored under the key
    is the returned one, its documents are the old ones followed by
    exactly the new document, and status, conditions and payments are
    unchanged. *)
Theorem AddDocument_spec σ now key documentId documentType documentHash
    documentMetadata escrow :
  σ !! key = Some escrow →
  (¬ open_for_updates escrow →
     AddDocument now key documentId documentType documentHash documentMetadata σ
     = (σ, Throws InvalidStateError)) ∧
  (open_for_updates escrow → documentMetadata = None →
     AddDocument now key documentId documentType documentHash documentMetadata σ
     = (σ, Throws SyntaxError)) ∧
  (open_for_updates escrow → is_Some documentMetadata →
   documents escrow = None →
     AddDocument now key documentId documentType documentHash documentMetadata σ
     = (σ, Throws TypeError)) ∧
  (∀ attached parsedMetadata,
     open_for_updates escrow →
     documents escrow = Some attached →
     documentMetadata = Some parsedMetadata →
     ∃ r,
       let document :=
         {| doc_documentId := documentId; doc_documentType := documentType;
            doc_documentHash := documentHash; doc_metadata := parsedMetadata;
            doc_timestamp := now |} in
       AddDocument now key documentId documentType documentHash
         documentMetadata σ
       = (<[key := r]> σ, Returns r) ∧
       documents r = Some (attached ++ [document]) ∧
       status r = status escrow ∧
       conditions_met r = conditions_met escrow ∧
       payments r
       = (λ paid : list Payment, JSON_payment <$> paid) <$> payments escrow).
Proof.
  intros Hσ. split_and!.
  - intros Hst%not_open_for_updates. tx_ops. tx_unfold. rewrite Hσ.
    by case_decide.
  - intros Hopen ->. tx_ops. tx_unfold. rewrite Hσ.
    case_decide as Hd; [by apply not_open_for_updates in Hd|done].
  - intros Hopen [parsedMetadata ->] Hdocs. tx_ops. tx_unfold. rewrite Hσ.
    case_decide as Hd; [by apply not_open_for_updates in Hd|].
    by rewrite Hdocs.
  - intros attached parsedMetadata Hopen Hdocs ->. tx_ops. tx_unfold.
    rewrite Hσ. case_decide as Hd; [by apply not_open_for_updates in Hd|].
    rewrite Hdocs. simpl. by eexists.
Qed.

(** X12: a condition id that is the name of a property of
    [Object.prototype] passes the check [conditionId in
    escrow.conditions_met] of [MarkConditionMet] on every open escrow,
    declared or not: the call never throws the unknown-condition error,
    and with valid details it returns and stores the id as a new key with
    value [true], except for "__proto__", whose assignment changes
    nothing. *)
Theorem MarkConditionMet_inherited_names σ now key conditionId verifierId
    verificationDetails escrow met :
  σ !! key = Some escrow →
  open_for_updates escrow →
  conditions_met escrow = Some met →
  conditionId ∈ JS.Object_prototype →
  (∀ σ', MarkConditionMet now key conditionId verifierId verificationDetails σ
         ≠ (σ', Throws UnknownConditionError)) ∧
  (∀ paid parsedDetails,
     payments escrow = Some paid →
     verificationDetails = Some parsedDetails →
     ∃ r,
       MarkConditionMet now key conditionId verifierId verificationDetails σ
       = (<[key := r]> σ, Returns r) ∧
       conditions_met r = Some (JS.assign conditionId true met) ∧
       (conditionId = "__proto__" → met !! conditionId = None →
        conditions_met r = Some met) ∧
       (conditionId ≠ "__proto__" →
        conditions_met r = Some (<[conditionId := true]> met))).
Proof using Type.
  clear spread.
  intros Hσ Hopen Hmet Hproto.
  assert (JS.has_property conditionId met = true) as Hin.
  { unfold JS.has_property. rewrite (bool_decide_eq_true_2 (_ ∈ _)) by done.
    by rewrite orb_true_r. }
  assert (¬ (status escrow ≠ Some "created"
             ∧ status escrow ≠ Some "in_progress")) as Hguard.
  { unfold open_for_updates in Hopen. tauto. }
  split.
  - intros σ' Hrun. revert Hrun. tx_ops. tx_unfold. rewrite Hσ.
    case_decide; [done|]. rewrite Hmet, Hin. simpl.
    intros Hrun. by tx_cases.
  - intros paid parsedDetails Hpaid ->. tx_ops. tx_unfold. rewrite Hσ.
    case_decide; [done|]. rewrite Hmet, Hin. simpl.
    destruct (verifications escrow) as [vs|] eqn:Hver; simpl;
      rewrite ?Hver, Hpaid; simpl; eexists; (split; [reflexivity|]);
      (split_and!; [by case_match | | ]).
    all: unfold JS.assign; intros; case_match; simpl; try done;
      case_decide; try done; exfalso; tauto.
Qed.

(** X13: marking a condition that is already met is accepted: it leaves
    [conditions_met] as it is, appends one more verification record, and
    re-evaluates readiness, so that an escrow whose conditions were all met
    before the price was paid becomes ready for completion by marking one
    of them again. *)
Theorem MarkConditionMet_again σ now key conditionId verifierId parsedDetails
    escrow met paid :
  σ !! key = Some escrow →
  open_for_updates escrow →
  conditions_met escrow = Some met →
  met !! conditionId = Some true →
  payments escrow = Some paid →
  ∃ r,
    MarkConditionMet now key conditionId verifierId (Some parsedDetails) σ
    = (<[key := r]> σ, Returns r) ∧
    conditions_met r = Some met ∧
    length (default [] (verifications r))
    = S (length (default [] (verifications escrow))) ∧
    status r =
      (if JS.every_true met && fully_paid (total_paid paid) escrow
       then Some "ready_for_completion" else status escrow).
Proof.
  intros Hσ Hopen Hmet Htrue Hpaid.
  assert (JS.has_property conditionId met = true) as Hin.
  { unfold JS.has_property. rewrite bool_decide_eq_true_2; [done|].
    by rewrite Htrue. }
  assert (JS.assign conditionId true met = met) as Hsame.
  { unfold JS.assign. case_decide; [done|]. by apply insert_id. }
  assert (¬ (status escrow ≠ Some "created"
             ∧ status escrow ≠ Some "in_progress")) as Hguard.
  { unfold open_for_updates in Hopen. tauto. }
  tx_ops. tx_unfold. rewrite Hσ.
  case_decide; [done|]. rewrite Hmet, Hin. simpl. rewrite Hsame.
  destruct (verifications escrow) as [vs|] eqn:Hver; simpl;
    rewrite ?Hver, Hpaid; simpl; eexists; (split; [reflexivity|]);
    rewrite (fully_paid_ext _ escrow) by done;
    (split; [by case_match|]); (split; [|by case_match]); case_match; simpl;
    rewrite ?length_app; simpl; lia.
Qed.

Lemma every_true_marked (k : string) :
  JS.every_true (JS.assign k true (JS.assign k false ∅)) = true.
Proof.
  unfold JS.assign, JS.every_true.
  destruct (decide (k = "__proto__")) as [->|Hk].
  - rewrite decide_True by done. rewrite decide_True by done.
    by rewrite map_to_list_empty.
  - rewrite decide_False by tauto.
    rewrite decide_False by tauto.
    rewrite insert_insert_eq, insert_empty, map_to_list_singleton. done.
Qed.

(** With no payment, the readiness test passes for a price that was read
    back as [null]. *)
Lemma fully_paid_null_price o :
  price o = Some JS.Null → fully_paid (total_paid (@nil (@Payment Json))) o = true.
Proof. unfold fully_paid, price_number. by intros ->. Qed.

(** X14: a price that [parseFloat] turns into [NaN] or an infinity is
    stored as [null], and [null] counts as zero in [totalPaid -
    escrow.price]: an escrow created with such a price and one condition
    becomes ready for completion when the condition is marked, without any
    payment. *)
Theorem unparseable_price_needs_no_payment σ now now' escrowId transactionId
    propertyId sellerId buyerId price condition verifierId parsedDetails
    property :
  is_Some (σ !! transactionId) →
  σ !! propertyId = Some property →
  ownerId property = Some sellerId →
  JS.JSON_number (JS.Num price) = JS.Null →
  cond_id condition ≠ "__proto__" →
  ∃ created r,
    CreateEscrow now escrowId transactionId propertyId sellerId buyerId price
      (Some (Elements [Some condition])) σ
    = (<[escrowId := created]> σ, Returns created) ∧
    MarkConditionMet now' escrowId (cond_id condition) verifierId
      (Some parsedDetails) (<[escrowId := created]> σ)
    = (<[escrowId := r]> σ, Returns r) ∧
    payments r = Some [] ∧
    status r = Some "ready_for_completion".
Proof.
  intros [t Ht] Hp Hown Hprice Hproto.
  destruct price; try discriminate Hprice; clear Hprice.
  all: do 2 eexists; split.
  all: try (tx_ops; tx_unfold; rewrite Ht, Hp; case_decide; [done|];
            reflexivity).
  all: tx_ops; tx_unfold; rewrite lookup_insert_eq; simpl;
    unfold JS.has_property.
  all: assert (JS.assign (cond_id condition) false ∅ !! cond_id condition
               = Some false) as Hdecl
         by (unfold JS.assign; rewrite decide_False by tauto;
             by rewrite lookup_insert_eq).
  all: rewrite bool_decide_eq_true_2 by (by rewrite Hdecl); simpl.
  all: rewrite every_true_marked.
  all: rewrite fully_paid_null_price by reflexivity; simpl.
  all: rewrite insert_insert_eq; split; [reflexivity|done].
Qed.

(** X15: on an existing escrow, [CancelEscrow] throws the invalid-state
    error when the status is completed or cancelled; otherwise (also from
    ready_for_completion) it returns, the escrow is stored with status
    cancelled and the given reason (or "No reason provided"), its payments
    are kept, the linked transaction, when present under a key of its
    own, becomes cancelled unless it is completed, and no other key
    changes. *)
Theorem CancelEscrow_spec σ now key reason escrow :
  σ !! key = Some escrow →
  (terminal escrow →
     CancelEscrow now key reason σ = (σ, Throws InvalidStateError)) ∧
  (¬ terminal escrow →
   ∃ σ' r,
     CancelEscrow now key reason σ = (σ', Returns r) ∧
     σ' !! key = Some r ∧
     status r = Some "cancelled" ∧
     cancellationReason r = Some (JS.or reason "No reason provided") ∧
     payments r = (λ paid : list Payment, JSON_payment <$> paid) <$> payments escrow ∧
     (∀ tk linked,
        transactionId escrow = Some tk → σ !! tk = Some linked → tk ≠ key →
        ∃ linked',
          σ' !! tk = Some linked' ∧
          status linked' =
            (if decide (status linked = Some "completed")
             then Some "completed" else Some "cancelled")) ∧
     (∀ j, j ≠ key → transactionId escrow ≠ Some j → σ' !! j = σ !! j)).
Proof.
  intros Hσ. split.
  - intros Hterm. tx_ops. tx_unfold. rewrite Hσ. by case_decide.
  - intros Hterm. tx_ops. tx_unfold. rewrite Hσ.
    case_decide; [done|].
    destruct (transactionId escrow) as [tk|] eqn:Htk; simpl.
    + destruct (σ !! tk) as [linked|] eqn:Hlinked.
      * destruct (decide (status linked ≠ Some "completed")) as [Hs|Hs]; simpl.
        -- do 2 eexists. split; [reflexivity|].
           split_and!; try done; try by rewrite lookup_insert_eq.
           ++ intros tk' linked' ? Hl ?. simplify_eq. eexists.
              rewrite lookup_insert_ne by done. rewrite lookup_insert_eq.
              split; [done|]. simpl. by rewrite decide_False.
           ++ intros j ??. rewrite !lookup_insert_ne; [done|congruence|done].
        -- apply dec_stable in Hs. do 2 eexists. split; [reflexivity|].
           split_and!; try done; try by rewrite lookup_insert_eq.
           ++ intros tk' linked' ? Hl ?. simplify_eq. eexists.
              rewrite lookup_insert_ne by done.
              split; [done|]. by rewrite decide_True.
           ++ intros j ??. by rewrite lookup_insert_ne.
      * do 2 eexists. split; [reflexivity|].
        split_and!; try done; try by rewrite lookup_insert_eq.
        -- intros tk' linked' ? Hl ?. simplify_eq.
        -- intros j ??. by rewrite lookup_insert_ne.
    + do 2 eexists. split; [reflexivity|].
      split_and!; try done; try by rewrite lookup_insert_eq.
      intros j ??. by rewrite lookup_insert_ne.
Qed.

Lemma CompleteEscrow_leaves_completed now key σ σ' r :
  CompleteEscrow now key σ = (σ', Returns r) →
  σ' !! key = Some r ∧ status r = Some "completed".
Proof.
  intros Hrun. tx_ops. tx_cases. by rewrite lookup_insert_eq.
Qed.

(** X16: an escrow is completed at most once: after a [CompleteEscrow]
    that returned, a second [CompleteEscrow] and a [CancelEscrow] of the
    same escrow throw the invalid-state error and write nothing. *)
Theorem CompleteEscrow_once now key σ σ' r :
  CompleteEscrow now key σ = (σ', Returns r) →
  (∀ now', CompleteEscrow now' key σ' = (σ', Throws InvalidStateError)) ∧
  (∀ now' reason,
     CancelEscrow now' key reason σ' = (σ', Throws InvalidStateError)).
Proof.
  intros [Hlook Hst]%CompleteEscrow_leaves_completed.
  split; intros; tx_ops; tx_unfold; rewrite Hlook; simpl;
    case_decide as Hguard;
    first [ done | congruence | exfalso; apply Hguard; auto ].
Qed.

(** X17: of two escrows on the same property that are both ready for
    completion, only the first to be completed transfers it: once
    [CompleteEscrow] has returned for one, [CompleteEscrow] for the other
    throws the ownership-mismatch error and writes nothing, the property
    now belonging to the first buyer (keys pairwise distinct, the first
    buyer not being the second seller). *)
Theorem competing_escrow_is_rejected now now' σ σ' r key key' escrow escrow' pk tk :
  σ !! key = Some escrow →
  σ !! key' = Some escrow' →
  propertyId escrow = Some pk →
  transactionId escrow = Some tk →
  propertyId escrow' = Some pk →
  status escrow' = Some "ready_for_completion" →
  pk ≠ tk → pk ≠ key →
  key' ≠ key → key' ≠ tk → key' ≠ pk →
  buyerId escrow ≠ sellerId escrow' →
  CompleteEscrow now key σ = (σ', Returns r) →
  CompleteEscrow now' key' σ' = (σ', Throws OwnershipMismatchError).
Proof.
  intros Hσ Hσ' Hpk Htk Hpk' Hst ????? Hbuyer Hrun.
  assert (∃ e' t' p',
            σ' = <[key := e']> (<[tk := t']> (<[pk := p']> σ))
            ∧ ownerId p' = buyerId escrow) as (e' & t' & p' & -> & Hp').
  { tx_ops. tx_unfold. rewrite Hσ, Hpk, Htk in Hrun. simpl in Hrun.
    tx_cases. by do 3 eexists. }
  clear Hrun. tx_ops. tx_unfold.
  rewrite lookup_insert_ne by done. rewrite lookup_insert_ne by done.
  rewrite lookup_insert_ne by done. rewrite Hσ'.
  case_decide; [done|]. rewrite Hpk'. simpl.
  rewrite lookup_insert_ne by done. rewrite lookup_insert_ne by done.
  rewrite lookup_insert_eq. rewrite Hp'.
  case_decide as Hown; [done|]. congruence.
Qed.

(** ** Further properties: PropertyContract *)

(** X18: [UpdateProperty] throws the not-found error for an absent key
    and a syntax error for details that are not valid JSON; otherwise it
    stores the record with the old details overlaid by the new ones and
    changes neither owner nor status nor history. *)
Theorem UpdateProperty_spec σ now key newDetails :
  (σ !! key = None →
     UpdateProperty spread now key newDetails σ = (σ, Throws NotFoundError)) ∧
  (∀ property,
     σ !! key = Some property →
     match newDetails with
     | None =>
         UpdateProperty spread now key newDetails σ = (σ, Throws SyntaxError)
     | Some updatedDetails =>
         ∃ r,
           UpdateProperty spread now key newDetails σ
           = (<[key := r]> σ, Returns r) ∧
           details r = Some (spread (details property) updatedDetails) ∧
           ownerId r = ownerId property ∧
           status r = status property ∧
           history r
           = (λ past : list HistoryEntry, JSON_history <$> past)
               <$> history property
     end).
Proof.
  split.
  - intros Hσ. unfold UpdateProperty. tx_unfold. by rewrite Hσ.
  - intros property Hσ. unfold UpdateProperty. tx_unfold. rewrite Hσ.
    destruct newDetails; [|done]. by eexists.
Qed.

(** X19: what [TransferProperty] does, in every case: it throws the
    not-found error for an absent key, the ownership-mismatch error when
    the record is not owned by [currentOwnerId], a syntax error when the
    details are not valid JSON and a type error when the record has no
    history, each time writing nothing; otherwise it returns, the record
    stored under the key is owned by [newOwnerId] and its history is the
    old one followed by exactly one transfer entry from the old to the new
    owner.  It looks at no transaction and no escrow, and changes no other
    key. *)
Theorem TransferProperty_spec σ now key currentOwnerId newOwnerId
    transactionDetails :
  (σ !! key = None →
     TransferProperty now key currentOwnerId newOwnerId transactionDetails σ
     = (σ, Throws NotFoundError)) ∧
  (∀ property,
     σ !! key = Some property →
     (ownerId property ≠ Some currentOwnerId →
        TransferProperty now key currentOwnerId newOwnerId transactionDetails σ
        = (σ, Throws OwnershipMismatchError)) ∧
     (ownerId property = Some currentOwnerId → transactionDetails = None →
        TransferProperty now key currentOwnerId newOwnerId transactionDetails σ
        = (σ, Throws SyntaxError)) ∧
     (ownerId property = Some currentOwnerId → is_Some transactionDetails →
      history property = None →
        TransferProperty now key currentOwnerId newOwnerId transactionDetails σ
        = (σ, Throws TypeError)) ∧
     (∀ past parsedDetails,
        ownerId property = Some currentOwnerId →
        history property = Some past →
        transactionDetails = Some parsedDetails →
        ∃ r,
          TransferProperty now key currentOwnerId newOwnerId
            transactionDetails σ
          = (<[key := r]> σ, Returns r) ∧
          ownerId r = Some newOwnerId ∧
          history r
          = Some (JSON_history <$>
                    (past ++ [directTransfer now currentOwnerId newOwnerId
                                parsedDetails])) ∧
          status r = status property ∧ details r = details property)).
Proof.
  split.
  - intros Hσ. tx_ops. tx_unfold. by rewrite Hσ.
  - intros property Hσ. split_and!.
    + intros Hown. tx_ops. tx_unfold. rewrite Hσ. by case_decide.
    + intros Hown ->. tx_ops. tx_unfold. rewrite Hσ. by case_decide.
    + intros Hown [parsedDetails ->] Hpast. tx_ops. tx_unfold. rewrite Hσ.
      case_decide; [done|]. by rewrite Hpast.
    + intros past parsedDetails Hown Hpast ->. tx_ops. tx_unfold.
      rewrite Hσ. case_decide; [done|]. rewrite Hpast. simpl. by eexists.
Qed.

(** ** Further properties: TransactionContract *)

(** X20: [CreateTransaction] throws the not-found error when the
    property is absent and the ownership-mismatch error when it is not
    owned by the seller; otherwise it stores a pending transaction under
    [transactionId], replacing whatever record was there. *)
Theorem CreateTransaction_spec σ now transactionId propertyId sellerId buyerId
    price paymentMethod notes :
  (σ !! propertyId = None →
     CreateTransaction now transactionId propertyId sellerId buyerId price
       paymentMethod notes σ = (σ, Throws NotFoundError)) ∧
  (∀ property,
     σ !! propertyId = Some property →
     (ownerId property ≠ Some sellerId →
        CreateTransaction now transactionId propertyId sellerId buyerId price
          paymentMethod notes σ = (σ, Throws OwnershipMismatchError)) ∧
     (ownerId property = Some sellerId →
        let r :=
          JSON_roundtrip
            (new_transaction now transactionId propertyId sellerId buyerId
               price paymentMethod notes) in
        CreateTransaction now transactionId propertyId sellerId buyerId price
          paymentMethod notes σ = (<[transactionId := r]> σ, Returns r) ∧
        status r = Some "pending")).
Proof.
  split.
  - intros Hp. tx_ops. tx_unfold. by rewrite Hp.
  - intros property Hp. split; intros Hown; tx_ops; tx_unfold; rewrite Hp;
      by case_decide.
Qed.

(** X21: what [CompleteTransaction] does on a pending transaction: it
    throws the not-found error when the property is absent and the
    ownership-mismatch error when it is not owned by the transaction's
    seller; when the property is on the ledger with a history and is owned
    by the seller, it returns, the transaction is stored as completed and
    the property, under a key of its own, is owned by the buyer, its
    history being the old one followed by exactly one entry; no other key
    changes. *)
Theorem CompleteTransaction_spec σ now key transaction :
  σ !! key = Some transaction →
  status transaction = Some "pending" →
  (∀ pk, propertyId transaction = Some pk → σ !! pk = None →
     CompleteTransaction now key σ = (σ, Throws NotFoundError)) ∧
  (∀ pk property,
     propertyId transaction = Some pk → σ !! pk = Some property →
     ownerId property ≠ sellerId transaction →
     CompleteTransaction now key σ = (σ, Throws OwnershipMismatchError)) ∧
  (∀ pk property past,
     propertyId transaction = Some pk → σ !! pk = Some property →
     ownerId property = sellerId transaction →
     history property = Some past →
     ∃ σ' r,
       CompleteTransaction now key σ = (σ', Returns r) ∧
       σ' !! key = Some r ∧ status r = Some "completed" ∧
       (pk ≠ key →
          ∃ property',
            σ' !! pk = Some property' ∧
            ownerId property' = buyerId transaction ∧
            history property'
            = Some (JSON_history <$>
                      (past ++ [transactionRecord now transaction]))) ∧
       (∀ j, j ≠ key → j ≠ pk → σ' !! j = σ !! j)).
Proof.
  intros Hσ Hst. split_and!.
  - intros pk Hpk Hnone. tx_ops. tx_unfold. rewrite Hσ.
    case_decide; [done|]. rewrite Hpk. simpl. by rewrite Hnone.
  - intros pk property Hpk Hprop Hown. tx_ops. tx_unfold. rewrite Hσ.
    case_decide; [done|]. rewrite Hpk. simpl. rewrite Hprop.
    by case_decide.
  - intros pk property past Hpk Hprop Hown Hpast. tx_ops. tx_unfold.
    rewrite Hσ. case_decide; [done|]. rewrite Hpk. simpl. rewrite Hprop.
    case_decide; [done|]. rewrite Hpast. simpl.
    do 2 eexists. split; [reflexivity|]. split_and!.
    + by rewrite lookup_insert_eq.
    + done.
    + intros Hne. eexists. split.
      { rewrite lookup_insert_ne by done. by rewrite lookup_insert_eq. }
      split; reflexivity.
    + intros j ??. by rewrite !lookup_insert_ne.
Qed.

(** X22: [CancelTransaction] on a pending transaction stores it with
    status cancelled and the given reason, or "No reason provided" for the
    empty one; afterwards the transaction can be neither completed nor
    cancelled again. *)
Theorem CancelTransaction_spec σ now key reason transaction :
  σ !! key = Some transaction →
  status transaction = Some "pending" →
  ∃ r,
    CancelTransaction now key reason σ = (<[key := r]> σ, Returns r) ∧
    status r = Some "cancelled" ∧
    cancellationReason r = Some (JS.or reason "No reason provided") ∧
    (∀ now', CompleteTransaction now' key (<[key := r]> σ)
             = (<[key := r]> σ, Throws InvalidStateError)) ∧
    (∀ now' reason',
       CancelTransaction now' key reason' (<[key := r]> σ)
       = (<[key := r]> σ, Throws InvalidStateError)).
Proof.
  intros Hσ Hst. eexists. split_and!.
  - tx_ops. tx_unfold. rewrite Hσ. case_decide; [done|]. reflexivity.
  - done.
  - done.
  - intros. tx_ops. tx_unfold. by rewrite lookup_insert_eq.
  - intros. tx_ops. tx_unfold. by rewrite lookup_insert_eq.
Qed.

(** X23: a transaction that is not pending rejects [CompleteTransaction]
    and [CancelTransaction] with the invalid-state error, and the world
    state stays as it is. *)
Theorem settled_transaction_rejects σ key transaction :
  σ !! key = Some transaction →
  status transaction ≠ Some "pending" →
  (∀ now, CompleteTransaction now key σ = (σ, Throws InvalidStateError)) ∧
  (∀ now reason,
     CancelTransaction now key reason σ = (σ, Throws InvalidStateError)).
Proof.
  intros Hσ Hst. split; intros; tx_ops; tx_unfold; rewrite Hσ;
    by case_decide.
Qed.

(** X24: a transaction is completed at most once: after a
    [CompleteTransaction] that returned, a second one and a
    [CancelTransaction] throw the invalid-state error and write nothing. *)
Theorem CompleteTransaction_once now key σ σ' r :
  CompleteTransaction now key σ = (σ', Returns r) →
  (∀ now', CompleteTransaction now' key σ' = (σ', Throws InvalidStateError)) ∧
  (∀ now' reason,
     CancelTransaction now' key reason σ' = (σ', Throws InvalidStateError)).
Proof.
  intros Hrun.
  assert (σ' !! key = Some r ∧ status r = Some "completed") as [Hlook Hst].
  { tx_ops. tx_cases. by rewrite lookup_insert_eq. }
  split; intros; tx_ops; tx_unfold; rewrite Hlook; simpl;
    case_decide as Hguard; first [ done | congruence ].
Qed.

(** ** Further properties: the two ways to complete a sale *)

(** X25: once [CompleteEscrow] has returned, the linked transaction is
    completed: [CompleteTransaction] and [CancelTransaction] on it throw
    the invalid-state error, so the property is not transferred a second
    time through the transaction contract. *)
Theorem CompleteTransaction_after_CompleteEscrow now key σ σ' r escrow tk :
  σ !! key = Some escrow →
  transactionId escrow = Some tk →
  tk ≠ key →
  CompleteEscrow now key σ = (σ', Returns r) →
  (∀ now', CompleteTransaction now' tk σ' = (σ', Throws InvalidStateError)) ∧
  (∀ now' reason,
     CancelTransaction now' tk reason σ' = (σ', Throws InvalidStateError)).
Proof.
  intros Hσ Htk Hne Hrun.
  assert (∃ t', σ' !! tk = Some t' ∧ status t' = Some "completed")
    as (t' & Hlook & Hst).
  { tx_ops. tx_unfold. rewrite Hσ, Htk in Hrun. simpl in Hrun. tx_cases.
    eexists. rewrite lookup_insert_ne by done. rewrite lookup_insert_eq.
    by split. }
  split; intros; tx_ops; tx_unfold; rewrite Hlook; simpl;
    case_decide as Hguard; first [ done | congruence ].
Qed.

(** X26: once [CompleteTransaction] has transferred the property,
    [CompleteEscrow] on an escrow of that property that is ready for
    completion throws the ownership-mismatch error and writes nothing:
    completing the transaction directly leaves the escrow stuck in
    ready_for_completion (the transaction's buyer not being the escrow's
    seller). *)
Theorem CompleteEscrow_after_CompleteTransaction now now' σ σ' r key tk pk
    transaction escrow :
  σ !! tk = Some transaction →
  propertyId transaction = Some pk →
  σ !! key = Some escrow →
  propertyId escrow = Some pk →
  status escrow = Some "ready_for_completion" →
  pk ≠ tk → key ≠ tk → key ≠ pk →
  buyerId transaction ≠ sellerId escrow →
  CompleteTransaction now tk σ = (σ', Returns r) →
  CompleteEscrow now' key σ' = (σ', Throws OwnershipMismatchError).
Proof.
  intros Hσ Hpk Hσ' Hpk' Hst ??? Hbuyer Hrun.
  assert (∃ t' p',
            σ' = <[tk := t']> (<[pk := p']> σ)
            ∧ ownerId p' = buyerId transaction) as (t' & p' & -> & Hp').
  { tx_ops. tx_unfold. rewrite Hσ, Hpk in Hrun. simpl in Hrun.
    tx_cases. by do 2 eexists. }
  clear Hrun. tx_ops. tx_unfold.
  rewrite lookup_insert_ne by done. rewrite lookup_insert_ne by done.
  rewrite Hσ'.
  case_decide; [done|]. rewrite Hpk'. simpl.
  rewrite lookup_insert_ne by done.
  rewrite lookup_insert_eq. rewrite Hp'.
  case_decide as Hown; [done|]. congruence.
Qed.


End Properties.

(** * Closed instances: witnesses and counterexamples *)

(** Reads the record stored under a key of a concrete ledger. *)
Ltac stored σ k escrow H :=
  destruct (σ !! k) as [escrow|] eqn:H; [|by vm_compute in H].

(** Witness for C2: on the ledger of the example sale, [CompleteEscrow] on
    the freshly created escrow throws the invalid-state error, and
    [CreateEscrow] with conditions that parse to an array holding [null]
    throws a type error; both leave the ledger as it was. *)
Lemma failed_escrow_call_writes_nothing_witness :
  (escrow_call (CallCompleteEscrow (Json:=unit) "E") = true ∧
   invoke no_spread "t3" (CallCompleteEscrow "E") opened_ledger
   = (opened_ledger, Throws InvalidStateError) ∧
   opened_ledger = opened_ledger) ∧
  (escrow_call
     (CallCreateEscrow (Json:=unit) "E2" "T" "P" "alice" "carol"
        (JS.of_Z 50000) (Some (Elements [Some c1; None]))) = true ∧
   invoke no_spread "t3"
     (CallCreateEscrow "E2" "T" "P" "alice" "carol" (JS.of_Z 50000)
        (Some (Elements [Some c1; None]))) opened_ledger
   = (opened_ledger, Throws TypeError) ∧
   opened_ledger = opened_ledger).
Proof.
  assert (invoke no_spread "t3" (CallCompleteEscrow "E") opened_ledger
          = (opened_ledger, Throws InvalidStateError)) as Hrun
    by (vm_compute; reflexivity).
  assert (invoke no_spread "t3"
            (CallCreateEscrow "E2" "T" "P" "alice" "carol" (JS.of_Z 50000)
               (Some (Elements [Some c1; None]))) opened_ledger
          = (opened_ledger, Throws TypeError)) as Hrun'
    by (vm_compute; reflexivity).
  split; (split; [reflexivity|]).
  - split; [exact Hrun|].
    exact (failed_escrow_call_writes_nothing no_spread "t3"
             (CallCompleteEscrow "E") opened_ledger opened_ledger
             InvalidStateError eq_refl Hrun).
  - split; [exact Hrun'|].
    exact (failed_escrow_call_writes_nothing no_spread "t3"
             (CallCreateEscrow "E2" "T" "P" "alice" "carol" (JS.of_Z 50000)
                (Some (Elements [Some c1; None])))
             opened_ledger opened_ledger TypeError eq_refl Hrun').
Defined.

(** Witness for C7: the completed escrow of the example sale. *)
Lemma terminal_escrow_rejects_mutations_witness :
  ∃ escrow,
    completed_ledger !! "E" = Some escrow ∧ terminal escrow ∧
    (∀ now paymentId amount paymentMethod paymentDetails,
       AddPayment now "E" paymentId amount paymentMethod paymentDetails
         completed_ledger
       = (completed_ledger, Throws InvalidStateError)) ∧
    (∀ now reason,
       CancelEscrow now "E" reason completed_ledger
       = (completed_ledger, Throws InvalidStateError)).
Proof.
  stored completed_ledger "E" escrow Hσ.
  assert (terminal escrow) as Hterm.
  { left. vm_compute in Hσ. by injection Hσ as <-. }
  exists escrow. split_and!; [done|done|..];
    by destruct (terminal_escrow_rejects_mutations _ _ _ Hσ Hterm)
      as (? & ? & ? & ? & ?).
Defined.


(** Witness for C1: the escrow of the example sale, ready for completion,
    is completed: the call returns, transaction and escrow are completed,
    and the property belongs to bob, with one history entry. *)
Lemma CompleteEscrow_spec_witness :
  ∃ (escrow : @Obj unit) (σ' : gmap string (@Obj unit))
    (r property' : @Obj unit),
    ready_ledger !! "E" = Some escrow ∧
    status escrow = Some "ready_for_completion" ∧
    CompleteEscrow "t6" "E" ready_ledger = (σ', Returns r) ∧
    status <$> σ' !! "T" = Some (Some "completed") ∧
    status <$> σ' !! "E" = Some (Some "completed") ∧
    σ' !! "P" = Some property' ∧
    ownerId property' = Some "bob" ∧
    length <$> history property' = Some 1%nat.
Proof.
  stored ready_ledger "E" escrow Hσ.
  stored ready_ledger "P" property Hprop.
  stored ready_ledger "T" transaction Ht.
  assert (status escrow = Some "ready_for_completion") as Hst.
  { vm_compute in Hσ. by injection Hσ as <-. }
  assert (propertyId escrow = Some "P") as Hpk.
  { vm_compute in Hσ. by injection Hσ as <-. }
  assert (transactionId escrow = Some "T") as Htk.
  { vm_compute in Hσ. by injection Hσ as <-. }
  assert (buyerId escrow = Some "bob") as Hbuyer.
  { vm_compute in Hσ. by injection Hσ as <-. }
  assert (ownerId property = sellerId escrow) as Hown.
  { vm_compute in Hσ. injection Hσ as <-.
    vm_compute in Hprop. by injection Hprop as <-. }
  assert (history property = Some []) as Hpast.
  { vm_compute in Hprop. by injection Hprop as <-. }
  destruct (CompleteEscrow_spec ready_ledger "t6" "E" escrow Hσ)
    as (_ & _ & Hreturns & Heffect).
  destruct (Hreturns "P" "T" property transaction [] Hst Hpk Hprop Hown Hpast
              Htk Ht) as (σ' & r & Hrun).
  destruct (Heffect σ' r Hrun)
    as (pk & tk & property0 & transaction0 & past & Hpk' & Hprop' & Htk' & _
        & Hpast' & Hcompleted & Hescrow & Hproperty).
  rewrite Hpk in Hpk'. injection Hpk' as <-.
  rewrite Htk in Htk'. injection Htk' as <-.
  rewrite Hprop in Hprop'. injection Hprop' as <-.
  rewrite Hpast in Hpast'. injection Hpast' as <-.
  destruct Hproperty as (property' & Hlook & Howner & Hhistory).
  { split; discriminate. }
  exists escrow, σ', r, property'.
  split; [reflexivity|]. split; [exact Hst|]. split; [exact Hrun|].
  split; [exact Hcompleted|]. split; [exact Hescrow|]. split; [exact Hlook|].
  split; [by rewrite Howner|]. by rewrite Hhistory.
Defined.

(** Counterexample to C1 as stated: the escrow was created with the
    property's key as its [transactionId]; [CompleteEscrow] returns, but its
    second write replaces the updated property by the copy it read as the
    transaction, so the property still belongs to the seller. *)
Lemma CompleteEscrow_shared_key_counterexample :
  ∃ escrow,
    shared_key_ledger !! "E" = Some escrow ∧
    ¬ CompleteEscrow_behaviour (λ _ _ _, True) shared_key_ledger "t4" "E" escrow.
Proof.
  stored shared_key_ledger "E" escrow Hσ. exists escrow. split; [done|].
  intros (_ & _ & _ & Hret).
  destruct (CompleteEscrow "t4" "E" shared_key_ledger) as [σ' [r|e]] eqn:Hrun;
    [|by vm_compute in Hrun].
  destruct (Hret _ _ eq_refl)
    as (pk & tk & property & transaction & past & Hpk & _ & _ & _ & _ & _ & _
        & Hown).
  destruct (Hown I) as (property' & Hlook & Howner & _).
  vm_compute in Hσ. injection Hσ as <-.
  vm_compute in Hpk. injection Hpk as <-.
  vm_compute in Hrun. injection Hrun as <- _.
  vm_compute in Hlook. injection Hlook as <-.
  by vm_compute in Howner.
Qed.

(** Counterexample to C3 as stated: registering the occupied id [P] again
    does not throw. *)
Lemma RegisterProperty_occupied_counterexample :
  ¬ RegisterProperty_rejects_occupied opened_ledger "t3" "P" "2 Side Street"
      "mallory" json.
Proof.
  intros [Hocc _]. destruct Hocc as [σ' Hrun].
  - vm_compute. by eexists.
  - by vm_compute in Hrun.
Qed.

(** Witness for C10: cancelling the orphan escrow with a reason. *)
Lemma CancelEscrow_orphan_witness :
  ∃ r,
    CancelEscrow "t1" "E" "buyer withdrew" orphan_ledger
    = (<["E" := r]> orphan_ledger, Returns r) ∧
    status r = Some "cancelled" ∧
    cancellationReason r = Some "buyer withdrew" ∧
    <["E" := r]> orphan_ledger !! "T" = None.
Proof.
  apply (CancelEscrow_orphan orphan_ledger "t1" "E" "buyer withdrew"
           orphan_escrow "T").
  - reflexivity.
  - by intros [|].
  - reflexivity.
  - reflexivity.
Defined.

(** Counterexample to C10 as stated: given the empty reason, the escrow
    records "No reason provided", not the reason given. *)
Lemma CancelEscrow_empty_reason_counterexample :
  ¬ CancelEscrow_without_transaction (λ reason, reason)
      orphan_ledger "t1" "E" EmptyString.
Proof.
  intros Hclaim.
  destruct (Hclaim orphan_escrow "T") as (r & Hrun & _ & Hreason & _);
    [reflexivity|by intros [|]|reflexivity|reflexivity|].
  vm_compute in Hrun. injection Hrun as _ <-. by vm_compute in Hreason.
Qed.

(** Every call of a concrete sale is admitted. *)
Ltac admitted_sale :=
  repeat split;
  try (vm_compute; reflexivity);
  try (intros escrow tk linked Hσ Htk Hlinked; right;
       vm_compute in Hσ; injection Hσ as <-;
       vm_compute in Htk; injection Htk as <-;
       vm_compute in Hlinked; by injection Hlinked as <-).



(** Witness for C8: the property of the completed example sale. *)
Lemma owner_matches_history_witness :
  ∃ property entry,
    completed_ledger !! "P" = Some property ∧
    docType property = Some "property" ∧
    last <$> history property = Some (Some entry) ∧
    ownerId property = hist_toOwnerId entry.
Proof.
  stored completed_ledger "P" property Hσ.
  assert (docType property = Some "property") as Hdoc.
  { vm_compute in Hσ. by injection Hσ as <-. }
  destruct (owner_matches_history no_spread sale_completed "P" property Hσ Hdoc)
    as (past & Hpast & Hown).
  destruct (last past) as [entry|] eqn:Hlast.
  - exists property, entry.
    split; [reflexivity|]. split; [exact Hdoc|]. split; [|exact Hown].
    rewrite Hpast. simpl. rewrite Hlast. reflexivity.
  - exfalso. vm_compute in Hσ. injection Hσ as <-.
    injection Hpast as <-. by vm_compute in Hlast.
Defined.

(** Witness for C9: 70000.00 + 50000.00 is computed exactly. *)
Lemma total_paid_exact_without_rounding_witness :
  no_rounding JS.zero [payment_of (JS.of_Z 70000); payment_of (JS.of_Z 50000)]
  = true ∧
  sums_exactly [payment_of (JS.of_Z 70000); payment_of (JS.of_Z 50000)].
Proof.
  assert (no_rounding JS.zero
            [payment_of (JS.of_Z 70000); payment_of (JS.of_Z 50000)] = true)
    as Hno by (vm_compute; reflexivity).
  split; [done|]. by apply total_paid_exact_without_rounding.
Defined.

(** Counterexample to C9 as stated: the computed total of the payments 0.1
    and 0.2 is not the exact sum of the two amounts. *)
Lemma total_paid_rounds_counterexample :
  ¬ sums_exactly [payment_of (JS.decimal 1 10); payment_of (JS.decimal 2 10)].
Proof.
  intros (computed & exact & Hc & He & Heq).
  vm_compute in Hc. injection Hc as <-.
  vm_compute in He. injection He as <-.
  apply Qeq_bool_iff in Heq. by vm_compute in Heq.
Qed.

(** The readiness test absorbs a whole currency unit: 10^16 + 1 is rounded
    to 10^16. *)
Lemma fully_paid_absorbs_a_unit :
  let paid := [payment_of (JS.of_Z (10 ^ 16)); payment_of (JS.of_Z 1)] in
  fully_paid (total_paid paid)
    (set_price (Some (JS.Num (JS.of_Z (10 ^ 16)))) orphan_escrow) = true ∧
  ∃ exact, exact_total 0 paid = Some exact ∧ (exact == inject_Z (10 ^ 16 + 1))%Q.
Proof.
  split; [vm_compute; reflexivity|].
  eexists. split; [vm_compute; reflexivity|]. by apply Qeq_bool_iff.
Qed.

(** C4 (the code departs from it): on the freshly created escrow of the
    example sale, whose only declared condition is [c1],
    [MarkConditionMet] with the undeclared condition id "toString" does
    not throw the unknown-condition error: the [in] test finds the name on
    [Object.prototype], the call returns, and the stored escrow has the new
    key [toString] set to [true] in [conditions_met]. *)
Theorem MarkConditionMet_accepts_inherited_name :
  ∃ (escrow : @Obj unit) met σ' (r : @Obj unit),
    opened_ledger !! "E" = Some escrow ∧
    status escrow = Some "created" ∧
    conditions_met escrow = Some met ∧
    met = {[ "c1" := false ]} ∧
    MarkConditionMet "t3" "E" "toString" "notary" json opened_ledger
    = (σ', Returns r) ∧
    σ' !! "E" = Some r ∧
    conditions_met r = Some (<[ "toString" := true ]> met).
Proof.
  stored opened_ledger "E" escrow Hσ.
  destruct (MarkConditionMet "t3" "E" "toString" "notary" json opened_ledger)
    as [σ' [r|e]] eqn:Hrun; [|by vm_compute in Hrun].
  exists escrow, {[ "c1" := false ]}, σ', r.
  vm_compute in Hσ. injection Hσ as <-.
  vm_compute in Hrun. injection Hrun as <- <-.
  split_and!; try reflexivity; by vm_compute.
Qed.

(** ** Witnesses of the further properties *)

(** Witness for X1: [TransferProperty] by someone who is not the owner. *)
Lemma failed_registry_call_writes_nothing_witness :
  escrow_call (CallTransferProperty (Json:=unit) "P" "mallory" "mallory" json)
  = false ∧
  invoke no_spread "t3" (CallTransferProperty "P" "mallory" "mallory" json)
    opened_ledger
  = (opened_ledger, Throws OwnershipMismatchError) ∧
  opened_ledger = opened_ledger.
Proof.
  assert (invoke no_spread "t3"
            (CallTransferProperty "P" "mallory" "mallory" json) opened_ledger
          = (opened_ledger, Throws OwnershipMismatchError)) as Hrun
    by (vm_compute; reflexivity).
  split; [reflexivity|]. split; [exact Hrun|].
  exact (failed_registry_call_writes_nothing no_spread "t3"
           (CallTransferProperty "P" "mallory" "mallory" json)
           opened_ledger opened_ledger OwnershipMismatchError
           eq_refl Hrun).
Defined.

(** Witness for X2: completing the first of the two sales leaves the escrow
    of the second as it is. *)
Lemma call_writes_its_footprint_witness :
  ("E2" ∉ footprint two_sales_ledger (CallCompleteEscrow "E")) ∧
  commit no_spread "t10" (CallCompleteEscrow "E") two_sales_ledger !! "E2"
  = two_sales_ledger !! "E2".
Proof.
  assert ("E2" ∉ footprint two_sales_ledger (CallCompleteEscrow "E")) as Hj.
  { apply (bool_decide_unpack _). vm_compute. exact I. }
  split; [exact Hj|].
  exact (call_writes_its_footprint no_spread "t10" (CallCompleteEscrow "E")
           two_sales_ledger "E2" Hj).
Defined.

(** Witness for X3: the escrow of the example sale is still on the ledger
    after the sale was paid, verified and completed. *)
Lemma run_never_deletes_witness :
  is_Some (opened_ledger !! "E") ∧
  is_Some (run no_spread
             [ ("t3", CallAddPayment "E" "pay-1" (JS.of_Z 120000) "wire" json);
               ("t4", CallMarkConditionMet "E" "c1" "notary" json);
               ("t5", CallCompleteEscrow "E") ] opened_ledger !! "E").
Proof.
  assert (is_Some (opened_ledger !! "E")) as Hj.
  { apply (bool_decide_unpack _). vm_compute. exact I. }
  split; [exact Hj|].
  exact (run_never_deletes no_spread _ opened_ledger "E" Hj).
Defined.

(** Witness for X4: the escrow returned by the first payment of the example
    sale is the one the read methods return afterwards. *)
Lemma getters_read_back_witness :
  ∃ σ' (r : @Obj unit),
    invoke no_spread "t3"
      (CallAddPayment "E" "pay-1" (JS.of_Z 70000) "wire" json) opened_ledger
    = (σ', Returns r) ∧
    GetProperty "E" σ' = (σ', Returns r) ∧
    GetTransaction "E" σ' = (σ', Returns r) ∧
    GetEscrow "E" σ' = (σ', Returns r).
Proof.
  destruct (invoke no_spread "t3"
              (CallAddPayment "E" "pay-1" (JS.of_Z 70000) "wire" json)
              opened_ledger) as [σ' [r|e]] eqn:Hrun;
    [|by vm_compute in Hrun].
  exists σ', r. split; [reflexivity|].
  exact (getters_read_back no_spread "t3"
           (CallAddPayment "E" "pay-1" (JS.of_Z 70000) "wire" json)
           opened_ledger σ' r Hrun).
Defined.

(** Witness for X6: the escrow of the example sale across its first
    payment. *)
Lemma records_keep_terms_and_grow_witness :
  ∃ (o o' : @Obj unit),
    opened_ledger !! "E" = Some o ∧
    ¬ (creates (CallAddPayment (Json:=unit) "E" "pay-1" (JS.of_Z 70000)
                  "wire" json) = true
       ∧ call_key (CallAddPayment (Json:=unit) "E" "pay-1" (JS.of_Z 70000)
                     "wire" json) = "E") ∧
    commit no_spread "t3"
      (CallAddPayment "E" "pay-1" (JS.of_Z 70000) "wire" json) opened_ledger
    !! "E" = Some o' ∧
    (o' = o ∨
     (same_terms o o' ∧
      grows JSON_payment (payments o) (payments o') ∧
      grows id (documents o) (documents o') ∧
      grows JSON_history (history o) (history o'))).
Proof.
  stored opened_ledger "E" o Hσ.
  assert (¬ (creates (CallAddPayment (Json:=unit) "E" "pay-1" (JS.of_Z 70000)
                        "wire" json) = true
             ∧ call_key (CallAddPayment (Json:=unit) "E" "pay-1"
                           (JS.of_Z 70000) "wire" json) = "E")) as Hfresh.
  { intros [Hc _]. discriminate Hc. }
  destruct (records_keep_terms_and_grow no_spread "t3"
              (CallAddPayment "E" "pay-1" (JS.of_Z 70000) "wire" json)
              opened_ledger "E" o Hσ Hfresh) as (o' & Hlook & Hkeep).
  exists o, o'. split; [reflexivity|]. split; [exact Hfresh|].
  split; [exact Hlook|exact Hkeep].
Defined.

(** Witness for X7: the first payment of the example sale moves the escrow
    from created to in_progress. *)
Lemma escrow_status_only_advances_witness :
  ∃ (escrow : @Obj unit) σ' (r : @Obj unit),
    updates_escrow (CallAddPayment (Json:=unit) "E" "pay-1" (JS.of_Z 70000)
                      "wire" json) = true ∧
    opened_ledger !! "E" = Some escrow ∧
    invoke no_spread "t3"
      (CallAddPayment "E" "pay-1" (JS.of_Z 70000) "wire" json) opened_ledger
    = (σ', Returns r) ∧
    σ' !! "E" = Some r ∧
    escrow_progress (status escrow) (status r).
Proof.
  stored opened_ledger "E" escrow Hσ.
  destruct (invoke no_spread "t3"
              (CallAddPayment "E" "pay-1" (JS.of_Z 70000) "wire" json)
              opened_ledger) as [σ' [r|e]] eqn:Hrun;
    [|by vm_compute in Hrun].
  exists escrow, σ', r.
  split; [reflexivity|]. split; [reflexivity|]. split; [reflexivity|].
  exact (escrow_status_only_advances no_spread "t3"
           (CallAddPayment "E" "pay-1" (JS.of_Z 70000) "wire" json)
           opened_ledger σ' r escrow eq_refl Hσ Hrun).
Defined.

(** Witness for X8: the escrow that was verified before it was paid becomes
    ready when its condition is marked again. *)
Lemma only_MarkConditionMet_readies_witness :
  ∃ (o' : @Obj unit),
    commit no_spread "t5" (CallMarkConditionMet "E" "c1" "notary" json)
      late_payment_ledger !! "E" = Some o' ∧
    status o' = Some "ready_for_completion" ∧
    ((∃ o, late_payment_ledger !! "E" = Some o
           ∧ status o = Some "ready_for_completion") ∨
     (∃ conditionId verifierId verificationDetails met,
        CallMarkConditionMet "E" "c1" "notary" json
        = CallMarkConditionMet "E" conditionId verifierId verificationDetails ∧
        conditions_met o' = Some met ∧ JS.every_true met = true)).
Proof.
  destruct (commit no_spread "t5" (CallMarkConditionMet "E" "c1" "notary" json)
              late_payment_ledger !! "E") as [o'|] eqn:Hlook;
    [|by vm_compute in Hlook].
  assert (status o' = Some "ready_for_completion") as Hst.
  { vm_compute in Hlook. by injection Hlook as <-. }
  exists o'. split; [reflexivity|]. split; [exact Hst|].
  exact (only_MarkConditionMet_readies no_spread "t5"
           (CallMarkConditionMet "E" "c1" "notary" json)
           late_payment_ledger "E" o' Hlook Hst).
Defined.

(** Witness for X10: a document added to the escrow of the example sale. *)
Lemma AddDocument_spec_witness :
  ∃ (escrow r : @Obj unit),
    opened_ledger !! "E" = Some escrow ∧
    open_for_updates escrow ∧
    AddDocument "t3" "E" "doc-1" "deed" "0xabc" json opened_ledger
    = (<["E" := r]> opened_ledger, Returns r) ∧
    (∃ document, documents r = Some [document]) ∧
    status r = status escrow.
Proof.
  stored opened_ledger "E" escrow Hσ.
  assert (open_for_updates escrow) as Hopen.
  { left. vm_compute in Hσ. by injection Hσ as <-. }
  assert (documents escrow = Some []) as Hdocs.
  { vm_compute in Hσ. by injection Hσ as <-. }
  destruct (AddDocument_spec opened_ledger "t3" "E" "doc-1" "deed" "0xabc"
              json escrow Hσ) as (_ & _ & _ & Hret).
  destruct (Hret [] tt Hopen Hdocs eq_refl) as (r & Hrun & Hr & Hst & _).
  exists escrow, r.
  split; [reflexivity|]. split; [exact Hopen|]. split; [exact Hrun|].
  split; [|exact Hst]. rewrite Hr. by eexists.
Defined.

(** Witness for X11: marking the declared condition of the example sale
    before anything is paid. *)
Lemma MarkConditionMet_spec_witness :
  ∃ (escrow : @Obj unit) (r : @Obj unit),
    opened_ledger !! "E" = Some escrow ∧
    open_for_updates escrow ∧
    MarkConditionMet "t3" "E" "c1" "notary" json opened_ledger
    = (<["E" := r]> opened_ledger, Returns r) ∧
    conditions_met r = Some {[ "c1" := true ]} ∧
    status r = Some "created".
Proof.
  stored opened_ledger "E" escrow Hσ.
  assert (status escrow = Some "created") as Hst.
  { vm_compute in Hσ. by injection Hσ as <-. }
  assert (open_for_updates escrow) as Hopen by (by left).
  assert (conditions_met escrow = Some {[ "c1" := false ]}) as Hmet.
  { vm_compute in Hσ. injection Hσ as <-. vm_compute. reflexivity. }
  assert (payments escrow = Some []) as Hpaid.
  { vm_compute in Hσ. by injection Hσ as <-. }
  destruct (MarkConditionMet_spec opened_ledger "t3" "E" "c1" "notary" json
              escrow Hσ) as (_ & _ & Hret).
  destruct (Hret {[ "c1" := false ]} [] tt Hopen Hmet) as (r & Hrun & Hr & _ & Hs).
  { rewrite lookup_singleton_eq. by eexists. }
  { exact Hpaid. }
  { reflexivity. }
  exists escrow, r. split; [reflexivity|]. split; [exact Hopen|].
  split; [exact Hrun|]. split.
  - rewrite Hr. f_equal; apply insert_singleton_eq.
  - rewrite Hs, Hst.
    assert (fully_paid (total_paid (@nil (@Payment unit))) escrow = false) as ->.
    { vm_compute in Hσ. injection Hσ as <-. vm_compute. reflexivity. }
    by rewrite andb_false_r.
Defined.

(** Witness for X12: the undeclared id "valueOf" on the escrow of the
    example sale. *)
Lemma MarkConditionMet_inherited_names_witness :
  ∃ (escrow : @Obj unit) (r : @Obj unit),
    opened_ledger !! "E" = Some escrow ∧
    open_for_updates escrow ∧
    conditions_met escrow = Some {[ "c1" := false ]} ∧
    "valueOf" ∈ JS.Object_prototype ∧
    MarkConditionMet "t3" "E" "valueOf" "notary" json opened_ledger
    = (<["E" := r]> opened_ledger, Returns r) ∧
    conditions_met r = Some (<["valueOf" := true]> {[ "c1" := false ]}).
Proof.
  stored opened_ledger "E" escrow Hσ.
  assert (open_for_updates escrow) as Hopen.
  { left. vm_compute in Hσ. by injection Hσ as <-. }
  assert (conditions_met escrow = Some {[ "c1" := false ]}) as Hmet.
  { vm_compute in Hσ. injection Hσ as <-. vm_compute. reflexivity. }
  assert (payments escrow = Some []) as Hpaid.
  { vm_compute in Hσ. by injection Hσ as <-. }
  assert ("valueOf" ∈ JS.Object_prototype) as Hproto.
  { apply (bool_decide_unpack _). vm_compute. exact I. }
  destruct (MarkConditionMet_inherited_names opened_ledger "t3" "E"
              "valueOf" "notary" json escrow {[ "c1" := false ]}
              Hσ Hopen Hmet Hproto) as [_ Hret].
  destruct (Hret [] tt Hpaid eq_refl) as (r & Hrun & _ & _ & Hr).
  exists escrow, r. split; [reflexivity|]. split; [exact Hopen|].
  split; [exact Hmet|]. split; [exact Hproto|]. split; [exact Hrun|].
  apply Hr. discriminate.
Defined.

(** Witness for X13: the escrow that was verified before it was paid;
    marking [c1] again makes it ready for completion. *)
Lemma MarkConditionMet_again_witness :
  ∃ (escrow : @Obj unit) paid (r : @Obj unit),
    late_payment_ledger !! "E" = Some escrow ∧
    open_for_updates escrow ∧
    conditions_met escrow = Some {[ "c1" := true ]} ∧
    payments escrow = Some paid ∧
    MarkConditionMet "t5" "E" "c1" "notary" json late_payment_ledger
    = (<["E" := r]> late_payment_ledger, Returns r) ∧
    conditions_met r = Some {[ "c1" := true ]} ∧
    status escrow = Some "in_progress" ∧
    status r = Some "ready_for_completion".
Proof.
  stored late_payment_ledger "E" escrow Hσ.
  assert (status escrow = Some "in_progress") as Hst.
  { vm_compute in Hσ. by injection Hσ as <-. }
  assert (open_for_updates escrow) as Hopen by (by right).
  assert (conditions_met escrow = Some {[ "c1" := true ]}) as Hmet.
  { vm_compute in Hσ. injection Hσ as <-. vm_compute. reflexivity. }
  destruct (payments escrow) as [paid|] eqn:Hpaid.
  2: { exfalso. vm_compute in Hσ. injection Hσ as <-. discriminate Hpaid. }
  destruct (MarkConditionMet_again late_payment_ledger "t5" "E" "c1" "notary"
              tt escrow {[ "c1" := true ]} paid Hσ Hopen Hmet)
    as (r & Hrun & Hr & _ & Hs).
  { apply lookup_singleton_eq. }
  { exact Hpaid. }
  exists escrow, paid, r. split; [reflexivity|]. split; [exact Hopen|].
  split; [exact Hmet|]. split; [exact Hpaid|]. split; [exact Hrun|].
  split; [exact Hr|]. split; [exact Hst|].
  rewrite Hs.
  assert (JS.every_true {[ "c1" := true ]}
          && fully_paid (total_paid paid) escrow = true) as ->; [|reflexivity].
  vm_compute in Hσ. injection Hσ as <-. injection Hpaid as <-.
  vm_compute. reflexivity.
Defined.

(** Witness for X14: an escrow on the example property whose price text
    does not parse. *)
Lemma unparseable_price_needs_no_payment_witness :
  ∃ (property created r : @Obj unit),
    is_Some (opened_ledger !! "T") ∧
    opened_ledger !! "P" = Some property ∧
    ownerId property = Some "alice" ∧
    JS.JSON_number (JS.Num JS.NaN) = JS.Null ∧
    cond_id c1 ≠ "__proto__" ∧
    CreateEscrow "t3" "E3" "T" "P" "alice" "bob" JS.NaN (Some (Elements [Some c1]))
      opened_ledger
    = (<["E3" := created]> opened_ledger, Returns created) ∧
    MarkConditionMet "t4" "E3" (cond_id c1) "notary" (Some tt)
      (<["E3" := created]> opened_ledger)
    = (<["E3" := r]> opened_ledger, Returns r) ∧
    payments r = Some [] ∧
    status r = Some "ready_for_completion".
Proof.
  stored opened_ledger "P" property Hσ.
  assert (is_Some (opened_ledger !! "T")) as Ht.
  { apply (bool_decide_unpack _). vm_compute. exact I. }
  assert (ownerId property = Some "alice") as Hown.
  { vm_compute in Hσ. by injection Hσ as <-. }
  assert (cond_id c1 ≠ "__proto__") as Hid by discriminate.
  destruct (unparseable_price_needs_no_payment opened_ledger "t3" "t4" "E3"
              "T" "P" "alice" "bob" JS.NaN c1 "notary" tt property
              Ht Hσ Hown eq_refl Hid) as (created & r & Hrun).
  exists property, created, r.
  split; [exact Ht|]. split; [reflexivity|]. split; [exact Hown|].
  split; [reflexivity|]. split; [exact Hid|]. exact Hrun.
Defined.

(** Witness for X15: cancelling the escrow of the example sale when it is
    ready for completion cancels the pending transaction as well. *)
Lemma CancelEscrow_spec_witness :
  ∃ (escrow : @Obj unit) σ' (r linked' : @Obj unit),
    ready_ledger !! "E" = Some escrow ∧
    ¬ terminal escrow ∧
    CancelEscrow "t6" "E" "buyer withdrew" ready_ledger = (σ', Returns r) ∧
    status escrow = Some "ready_for_completion" ∧
    status r = Some "cancelled" ∧
    σ' !! "T" = Some linked' ∧
    status linked' = Some "cancelled" ∧
    σ' !! "P" = ready_ledger !! "P".
Proof.
  stored ready_ledger "E" escrow Hσ.
  stored ready_ledger "T" linked Hlinked.
  assert (status escrow = Some "ready_for_completion") as Hst.
  { vm_compute in Hσ. by injection Hσ as <-. }
  assert (transactionId escrow = Some "T") as Htk.
  { vm_compute in Hσ. by injection Hσ as <-. }
  assert (status linked = Some "pending") as Hpending.
  { vm_compute in Hlinked. by injection Hlinked as <-. }
  assert (¬ terminal escrow) as Hterm.
  { unfold terminal. rewrite Hst. by intros [|]. }
  destruct (CancelEscrow_spec ready_ledger "t6" "E" "buyer withdrew" escrow Hσ)
    as [_ Hret].
  destruct (Hret Hterm)
    as (σ' & r & Hrun & _ & Hr & _ & _ & Hlink & Hframe).
  destruct (Hlink "T" linked Htk Hlinked) as (linked' & Hl & Hs);
    [discriminate|].
  exists escrow, σ', r, linked'.
  split; [reflexivity|]. split; [exact Hterm|]. split; [exact Hrun|].
  split; [exact Hst|]. split; [exact Hr|]. split; [exact Hl|]. split.
  - rewrite Hs, Hpending. reflexivity.
  - apply Hframe; [discriminate|]. rewrite Htk. discriminate.
Defined.

(** Witness for X16: the completed escrow of the example sale. *)
Lemma CompleteEscrow_once_witness :
  ∃ σ' (r : @Obj unit),
    CompleteEscrow "t6" "E" ready_ledger = (σ', Returns r) ∧
    (∀ now', CompleteEscrow now' "E" σ' = (σ', Throws InvalidStateError)) ∧
    (∀ now' reason,
       CancelEscrow now' "E" reason σ' = (σ', Throws InvalidStateError)).
Proof.
  destruct (CompleteEscrow "t6" "E" ready_ledger) as [σ' [r|e]] eqn:Hrun;
    [|by vm_compute in Hrun].
  exists σ', r. split; [reflexivity|].
  exact (CompleteEscrow_once "t6" "E" ready_ledger σ' r Hrun).
Defined.

(** Witness for X17: the two sales of [P]; after the sale to bob is
    completed, the sale to carol cannot be. *)
Lemma competing_escrow_is_rejected_witness :
  ∃ (escrow escrow' : @Obj unit) σ' (r : @Obj unit),
    two_sales_ledger !! "E" = Some escrow ∧
    two_sales_ledger !! "E2" = Some escrow' ∧
    status escrow' = Some "ready_for_completion" ∧
    propertyId escrow = propertyId escrow' ∧
    CompleteEscrow "t10" "E" two_sales_ledger = (σ', Returns r) ∧
    CompleteEscrow "t11" "E2" σ' = (σ', Throws OwnershipMismatchError).
Proof.
  stored two_sales_ledger "E" escrow Hσ.
  stored two_sales_ledger "E2" escrow' Hσ'.
  destruct (CompleteEscrow "t10" "E" two_sales_ledger) as [σ' [r|e]] eqn:Hrun;
    [|by vm_compute in Hrun].
  assert (propertyId escrow = Some "P") as Hpk.
  { vm_compute in Hσ. by injection Hσ as <-. }
  assert (transactionId escrow = Some "T") as Htk.
  { vm_compute in Hσ. by injection Hσ as <-. }
  assert (propertyId escrow' = Some "P") as Hpk'.
  { vm_compute in Hσ'. by injection Hσ' as <-. }
  assert (status escrow' = Some "ready_for_completion") as Hst'.
  { vm_compute in Hσ'. by injection Hσ' as <-. }
  assert (buyerId escrow ≠ sellerId escrow') as Hbuyer.
  { vm_compute in Hσ. injection Hσ as <-.
    vm_compute in Hσ'. injection Hσ' as <-. discriminate. }
  assert ("P" ≠ "T") as H1 by discriminate.
  assert ("P" ≠ "E") as H2 by discriminate.
  assert ("E2" ≠ "E") as H3 by discriminate.
  assert ("E2" ≠ "T") as H4 by discriminate.
  assert ("E2" ≠ "P") as H5 by discriminate.
  exists escrow, escrow', σ', r.
  split; [reflexivity|]. split; [reflexivity|]. split; [exact Hst'|].
  split; [by rewrite Hpk, Hpk'|]. split; [reflexivity|].
  exact (competing_escrow_is_rejected "t10" "t11" two_sales_ledger σ' r
           "E" "E2" escrow escrow' "P" "T" Hσ Hσ' Hpk Htk Hpk' Hst'
           H1 H2 H3 H4 H5 Hbuyer Hrun).
Defined.

(** Witness for X21: completing the pending transaction of the example
    sale directly transfers the property to bob. *)
Lemma CompleteTransaction_spec_witness :
  ∃ (transaction : @Obj unit) σ' (r property' : @Obj unit),
    opened_ledger !! "T" = Some transaction ∧
    status transaction = Some "pending" ∧
    CompleteTransaction "t3" "T" opened_ledger = (σ', Returns r) ∧
    status r = Some "completed" ∧
    σ' !! "P" = Some property' ∧
    ownerId property' = Some "bob" ∧
    length <$> history property' = Some 1%nat ∧
    σ' !! "E" = opened_ledger !! "E".
Proof.
  stored opened_ledger "T" transaction Hσ.
  stored opened_ledger "P" property Hprop.
  assert (status transaction = Some "pending") as Hst.
  { vm_compute in Hσ. by injection Hσ as <-. }
  assert (propertyId transaction = Some "P") as Hpk.
  { vm_compute in Hσ. by injection Hσ as <-. }
  assert (buyerId transaction = Some "bob") as Hbuyer.
  { vm_compute in Hσ. by injection Hσ as <-. }
  assert (ownerId property = sellerId transaction) as Hown.
  { vm_compute in Hσ. injection Hσ as <-.
    vm_compute in Hprop. by injection Hprop as <-. }
  assert (history property = Some []) as Hpast.
  { vm_compute in Hprop. by injection Hprop as <-. }
  destruct (CompleteTransaction_spec opened_ledger "t3" "T" transaction Hσ Hst)
    as (_ & _ & Hret).
  destruct (Hret "P" property [] Hpk Hprop Hown Hpast)
    as (σ' & r & Hrun & _ & Hr & Hproperty & Hframe).
  destruct Hproperty as (property' & Hlook & Howner & Hhistory);
    [discriminate|].
  exists transaction, σ', r, property'.
  split; [reflexivity|]. split; [exact Hst|]. split; [exact Hrun|].
  split; [exact Hr|]. split; [exact Hlook|].
  split; [by rewrite Howner|]. split; [by rewrite Hhistory|].
  apply Hframe; discriminate.
Defined.

(** Witness for X22: cancelling the pending transaction of the example
    sale without a reason. *)
Lemma CancelTransaction_spec_witness :
  ∃ (transaction r : @Obj unit),
    opened_ledger !! "T" = Some transaction ∧
    status transaction = Some "pending" ∧
    CancelTransaction "t3" "T" EmptyString opened_ledger
    = (<["T" := r]> opened_ledger, Returns r) ∧
    status r = Some "cancelled" ∧
    cancellationReason r = Some "No reason provided" ∧
    CompleteTransaction "t4" "T" (<["T" := r]> opened_ledger)
    = (<["T" := r]> opened_ledger, Throws InvalidStateError).
Proof.
  stored opened_ledger "T" transaction Hσ.
  assert (status transaction = Some "pending") as Hst.
  { vm_compute in Hσ. by injection Hσ as <-. }
  destruct (CancelTransaction_spec opened_ledger "t3" "T" EmptyString
              transaction Hσ Hst) as (r & Hrun & Hr & Hreason & Hcomplete & _).
  exists transaction, r.
  split; [reflexivity|]. split; [exact Hst|]. split; [exact Hrun|].
  split; [exact Hr|]. split; [exact Hreason|]. exact (Hcomplete "t4").
Defined.

(** Witness for X23: the transaction of the completed example sale. *)
Lemma settled_transaction_rejects_witness :
  ∃ (transaction : @Obj unit),
    completed_ledger !! "T" = Some transaction ∧
    status transaction = Some "completed" ∧
    (∀ now, CompleteTransaction now "T" completed_ledger
            = (completed_ledger, Throws InvalidStateError)) ∧
    (∀ now reason,
       CancelTransaction now "T" reason completed_ledger
       = (completed_ledger, Throws InvalidStateError)).
Proof.
  stored completed_ledger "T" transaction Hσ.
  assert (status transaction = Some "completed") as Hst.
  { vm_compute in Hσ. by injection Hσ as <-. }
  assert (status transaction ≠ Some "pending") as Hne.
  { rewrite Hst. discriminate. }
  exists transaction. split; [reflexivity|]. split; [exact Hst|].
  exact (settled_transaction_rejects completed_ledger "T" transaction Hσ Hne).
Defined.

(** Witness for X24: the transaction of the example sale, completed
    directly. *)
Lemma CompleteTransaction_once_witness :
  ∃ σ' (r : @Obj unit),
    CompleteTransaction "t3" "T" opened_ledger = (σ', Returns r) ∧
    (∀ now', CompleteTransaction now' "T" σ' = (σ', Throws InvalidStateError)) ∧
    (∀ now' reason,
       CancelTransaction now' "T" reason σ' = (σ', Throws InvalidStateError)).
Proof.
  destruct (CompleteTransaction "t3" "T" opened_ledger) as [σ' [r|e]] eqn:Hrun;
    [|by vm_compute in Hrun].
  exists σ', r. split; [reflexivity|].
  exact (CompleteTransaction_once "t3" "T" opened_ledger σ' r Hrun).
Defined.

(** Witness for X25: after the escrow of the example sale is completed,
    its transaction can be neither completed nor cancelled. *)
Lemma CompleteTransaction_after_CompleteEscrow_witness :
  ∃ (escrow : @Obj unit) σ' (r : @Obj unit),
    ready_ledger !! "E" = Some escrow ∧
    transactionId escrow = Some "T" ∧
    CompleteEscrow "t6" "E" ready_ledger = (σ', Returns r) ∧
    (∀ now', CompleteTransaction now' "T" σ' = (σ', Throws InvalidStateError)) ∧
    (∀ now' reason,
       CancelTransaction now' "T" reason σ' = (σ', Throws InvalidStateError)).
Proof.
  stored ready_ledger "E" escrow Hσ.
  destruct (CompleteEscrow "t6" "E" ready_ledger) as [σ' [r|e]] eqn:Hrun;
    [|by vm_compute in Hrun].
  assert (transactionId escrow = Some "T") as Htk.
  { vm_compute in Hσ. by injection Hσ as <-. }
  assert ("T" ≠ "E") as Hne by discriminate.
  exists escrow, σ', r.
  split; [reflexivity|]. split; [exact Htk|]. split; [reflexivity|].
  exact (CompleteTransaction_after_CompleteEscrow "t6" "E" ready_ledger σ' r
           escrow "T" Hσ Htk Hne Hrun).
Defined.

(** Witness for X26: in the example sale, completing the transaction
    directly leaves the escrow, ready for completion, impossible to
    complete. *)
Lemma CompleteEscrow_after_CompleteTransaction_witness :
  ∃ (transaction escrow : @Obj unit) σ' (r : @Obj unit),
    ready_ledger !! "T" = Some transaction ∧
    ready_ledger !! "E" = Some escrow ∧
    status escrow = Some "ready_for_completion" ∧
    CompleteTransaction "t6" "T" ready_ledger = (σ', Returns r) ∧
    CompleteEscrow "t7" "E" σ' = (σ', Throws OwnershipMismatchError).
Proof.
  stored ready_ledger "T" transaction Hσ.
  stored ready_ledger "E" escrow Hσ'.
  destruct (CompleteTransaction "t6" "T" ready_ledger) as [σ' [r|e]] eqn:Hrun;
    [|by vm_compute in Hrun].
  assert (propertyId transaction = Some "P") as Hpk.
  { vm_compute in Hσ. by injection Hσ as <-. }
  assert (propertyId escrow = Some "P") as Hpk'.
  { vm_compute in Hσ'. by injection Hσ' as <-. }
  assert (status escrow = Some "ready_for_completion") as Hst.
  { vm_compute in Hσ'. by injection Hσ' as <-. }
  assert (buyerId transaction ≠ sellerId escrow) as Hbuyer.
  { vm_compute in Hσ. injection Hσ as <-.
    vm_compute in Hσ'. injection Hσ' as <-. discriminate. }
  assert ("P" ≠ "T") as H1 by discriminate.
  assert ("E" ≠ "T") as H2 by discriminate.
  assert ("E" ≠ "P") as H3 by discriminate.
  exists transaction, escrow, σ', r.
  split; [reflexivity|]. split; [reflexivity|]. split; [exact Hst|].
  split; [reflexivity|].
  exact (CompleteEscrow_after_CompleteTransaction "t6" "t7" ready_ledger σ' r
           "E" "T" "P" transaction escrow Hσ Hpk Hσ' Hpk' Hst H1 H2 H3
           Hbuyer Hrun).
Defined.
